(** * Movie recommender notebooks: collaborative filter, evaluation, hybrid blend

    A shallow embedding of the Python cells of [Collaborative.ipynb] and
    [Hybrid.ipynb].  Ratings and scores are rationals ([Q]); user and movie
    identifiers are integers ([Z]); a data frame is the list of its rows, in
    row order; Python dictionaries are finite maps. *)

From Stdlib Require Import ZArith QArith Qminmax Qabs Qround Rbase R_sqrt Qreals Lia Lqa.
From stdpp Require Import gmap strings list sorting.

Local Open Scope Q_scope.

(** ** Numbers *)

(** [sum(xs)] over rationals. *)
Definition Qsum (xs : list Q) : Q := foldr Qplus 0 xs.

(** [numpy.dot] of two factor rows: products of paired entries, summed. *)
Fixpoint dot (p q : list Q) : Q :=
  match p, q with
  | x :: p', y :: q' => x * y + dot p' q'
  | _, _ => 0
  end.

(** Clipping into the closed interval [[lo, hi]]: first [min(hi, x)], then
    [max(lo, _)]. *)
Definition clip (lo hi x : Q) : Q := Qmax lo (Qmin hi x).

(** ** The rating scale

    [reader = Reader(rating_scale=(0.5, 5.0))], the same in both notebooks. *)
Definition rating_scale : Q * Q := (1 # 2, 5).

(** ** The latent-factor model

    The notebooks obtain their model from [SVD().fit(trainset)] of the
    [surprise] package; the class is imported, its body is not part of the
    sources.  The model below is the one the specification describes. *)

Module LatentFactorModel.

(** Modelled from the spec: the parameters of the trained latent-factor model
    (section 3): global bias, one bias per known user and per known item, one
    factor row per known user and per known item.  The body of the imported
    [SVD] class is what is missing. *)
Record t := Model {
  mu : Q;
  b_u : gmap Z Q;
  b_i : gmap Z Q;
  P : gmap Z (list Q);
  Qi : gmap Z (list Q)
}.

(** Modelled from the spec: a user is known when training gave it a bias entry
    (section 3: ids unseen in training are unknown); the id mapping of the
    missing [SVD] class. *)
Definition knows_user (m : t) (u : Z) : bool := bool_decide (is_Some (b_u m !! u)).

(** Modelled from the spec: likewise for items. *)
Definition knows_item (m : t) (i : Z) : bool := bool_decide (is_Some (b_i m !! i)).

(** Modelled from the spec: the bias of a user, treated as 0 when the user is
    unknown (section 4.2, fallback policy of the missing [SVD] class). *)
Definition user_bias (m : t) (u : Z) : Q := default 0 (b_u m !! u).

(** Modelled from the spec: the bias of an item, 0 when the item is unknown. *)
Definition item_bias (m : t) (i : Z) : Q := default 0 (b_i m !! i).

(** Modelled from the spec: the factor row of a user; the zero vector (no
    contribution to any dot product) when the user is unknown. *)
Definition user_factors (m : t) (u : Z) : list Q :=
  if knows_user m u then default [] (P m !! u) else [].

(** Modelled from the spec: the factor row of an item, zero when unknown. *)
Definition item_factors (m : t) (i : Z) : list Q :=
  if knows_item m i then default [] (Qi m !! i) else [].

(** Modelled from the spec: the raw estimate of section 4.2,
    [mu + b_u[user] + b_i[item] + dot(P[user], Q[item])], with the fallback
    policy for unknown users and items. *)
Definition estimate (m : t) (u i : Z) : Q :=
  mu m + user_bias m u + item_bias m i + dot (user_factors m u) (item_factors m i).

(** Modelled from the spec: [predict(userId, itemId)] of section 4.2, the
    estimate clipped to the configured rating scale.  It stands for the
    missing body of [svd.predict(user_id, movie_id).est]. *)
Definition predict (m : t) (u i : Z) : Q :=
  clip (fst rating_scale) (snd rating_scale) (estimate m u i).

End LatentFactorModel.

(** ** Python and pandas helpers *)

(** [Series.unique()] / [DataFrame.drop_duplicates(subset=key)]: the rows whose
    key has not occurred in an earlier row, in row order. *)
Fixpoint drop_duplicates_from {A K : Type} `{EqDecision K}
    (key : A → K) (seen : list K) (l : list A) : list A :=
  match l with
  | [] => []
  | x :: l' =>
      if decide (key x ∈ seen) then drop_duplicates_from key seen l'
      else x :: drop_duplicates_from key (key x :: seen) l'
  end.

Definition drop_duplicates {A K : Type} `{EqDecision K} (key : A → K) (l : list A) : list A :=
  drop_duplicates_from key [] l.

Definition unique {A : Type} `{EqDecision A} (l : list A) : list A :=
  drop_duplicates (λ x, x) l.

(** [Series.to_dict()] of a series indexed by the first component: a later row
    overwrites an earlier one with the same index. *)
Definition to_dict {V : Type} (kvs : list (Z * V)) : gmap Z V :=
  foldl (λ m kv, <[kv.1 := kv.2]> m) ∅ kvs.

(** The slice [l[:n]] (also [DataFrame.head(n)]): the first [n] elements; for a
    negative [n], all but the last [-n]. *)
Definition slice_to {A : Type} (n : Z) (l : list A) : list A :=
  if (0 <=? n)%Z then take (Z.to_nat n) l
  else take (length l - Z.to_nat (- n)) l.

(** Stable sorting by insertion.  [before y x] says that [y] must come
    strictly before [x]; an element is placed after the elements that come
    strictly before it and in front of the rest, so ties keep their order. *)
Section sorting.
Context {A : Type} (before : A → A → bool).

Fixpoint insert_sorted (x : A) (l : list A) : list A :=
  match l with
  | [] => [x]
  | y :: l' => if before y x then y :: insert_sorted x l' else x :: y :: l'
  end.

Definition sorted_by (l : list A) : list A := foldr insert_sorted [] l.

(** [a] may stand in front of [b]: [b] does not have to come strictly first. *)
Definition in_order (a b : A) : Prop := before b a = false.
End sorting.

Definition Qlt_bool (x y : Q) : bool := negb (Qle_bool y x).

(** [round(x)]: to the nearest integer, a tie going to the even one. *)
Definition round_half_even (x : Q) : Z :=
  let f := Qfloor x in
  match Qcompare (x - inject_Z f) (1 # 2) with
  | Lt => f
  | Gt => (f + 1)%Z
  | Eq => if Z.even f then f else (f + 1)%Z
  end.

(** [round(x, 2)]. *)
Definition round2 (x : Q) : Q := inject_Z (round_half_even (x * 100)) / 100.

(** ** The data set

    A row of [cleaned_movie_ratings.csv] with the columns the notebooks read.
    [userId], [movieId] and [rating] are present in every row
    ([Dataset.load_from_df] is given them as they are); [vote_average] is
    [None] where the cell is empty (NaN). *)
Record Row := {
  userId : Z;
  movieId : Z;
  rating : Q;
  title : string;
  vote_average : option Q;
  genres : string
}.

(** [df.dropna(subset=["userId", "movieId", "rating", "vote_average"])]: of the
    four columns only [vote_average] can be empty in a [Row]. *)
Definition dropna_subset (df : list Row) : list Row :=
  filter (λ r, is_Some (vote_average r)) df.

(** The (user, item, rating) triples [Dataset.load_from_df] reads off
    [df[['userId', 'movieId', 'rating']]]. *)
Definition load_from_df (df : list Row) : list (Z * Z * Q) :=
  (λ r, (userId r, movieId r, rating r)) <$> df.

(** ** The prediction interface of the [surprise] package

    The notebooks use a fitted algorithm through [predict] and [test] only. *)

(** A fitted algorithm, as far as the notebooks use one: the estimate it
    returns for a (user, item) pair, [algo.predict(uid, iid).est]. *)
Definition Algo : Type := Z → Z → Q.

(** The [Prediction] tuple: user, item, true rating if given, estimate. *)
Record Prediction := {
  uid : Z;
  iid : Z;
  r_ui : option Q;
  est : Q
}.

(** [algo.predict(uid, iid, r_ui=None)]. *)
Definition predict (algo : Algo) (u i : Z) (r : option Q) : Prediction :=
  {| uid := u; iid := i; r_ui := r; est := algo u i |}.

(** [algo.test(testset)]: one prediction per rating of the test set, in order. *)
Definition test (algo : Algo) (testset : list (Z * Z * Q)) : list Prediction :=
  (λ t, predict algo t.1.1 t.1.2 (Some t.2)) <$> testset.

(** The fitted model of section 4.2 seen through that interface. *)
Definition svd (m : LatentFactorModel.t) : Algo := LatentFactorModel.predict m.

(** ** The metric functions the evaluation cells call

    [from sklearn.metrics import accuracy_score, precision_score, recall_score,
    f1_score, mean_squared_error, mean_absolute_error]: imported functions,
    given here by their textbook definitions over paired samples. *)

Module Metrics.

(** The mean of a sample; undefined ([None]) for an empty one. *)
Definition average (xs : list Q) : option Q :=
  match xs with
  | [] => None
  | _ => Some (Qsum xs / inject_Z (Z.of_nat (length xs)))
  end.

(** The two arguments of a metric must have the same number of samples. *)
Definition check_consistent_length {A B : Type} (y_true : list A) (y_pred : list B) : bool :=
  bool_decide (length y_true = length y_pred).

Definition mean_squared (y_true y_pred : list Q) : option Q :=
  if check_consistent_length y_true y_pred
  then average (zip_with (λ t p, (t - p) * (t - p)) y_true y_pred)
  else None.

(** [mean_squared_error(y_true, y_pred, squared)]: the mean of the squared
    differences, or its square root when [squared=False]. *)
Definition mean_squared_error (y_true y_pred : list Q) (squared : bool) : option R :=
  (λ q, if squared then Q2R q else sqrt (Q2R q)) <$> mean_squared y_true y_pred.

(** [mean_absolute_error(y_true, y_pred)]. *)
Definition mean_absolute_error (y_true y_pred : list Q) : option Q :=
  if check_consistent_length y_true y_pred
  then average (zip_with (λ t p, Qabs (t - p)) y_true y_pred)
  else None.

(** [accuracy_score]: the share of samples whose two labels agree. *)
Definition accuracy_score (y_true y_pred : list Z) : option Q :=
  if check_consistent_length y_true y_pred
  then average (zip_with (λ t p, if decide (t = p) then 1 else 0) y_true y_pred)
  else None.

(** Entries of the confusion matrix for the positive label 1. *)
Definition tp_sum (y_true y_pred : list Z) : nat :=
  length (filter (λ tp, tp.1 = 1%Z ∧ tp.2 = 1%Z) (zip y_true y_pred)).
Definition pred_sum (y_pred : list Z) : nat := length (filter (λ p, p = 1%Z) y_pred).
Definition true_sum (y_true : list Z) : nat := length (filter (λ t, t = 1%Z) y_true).

(** Modelled from the spec: a ratio of counts under the zero convention of
    section 7 ("report 0"): with a zero denominator the result is 0.  What is
    missing is the body of the imported [precision_score], [recall_score] and
    [f1_score]; the cells call them with default arguments, under which the
    package warns and reports 0 as well. *)
Definition prf_divide (numerator denominator : nat) : Q :=
  match denominator with
  | O => 0
  | S _ => inject_Z (Z.of_nat numerator) / inject_Z (Z.of_nat denominator)
  end.

Definition precision_score (y_true y_pred : list Z) : Q :=
  prf_divide (tp_sum y_true y_pred) (pred_sum y_pred).

Definition recall_score (y_true y_pred : list Z) : Q :=
  prf_divide (tp_sum y_true y_pred) (true_sum y_true).

(** [f1_score]: the harmonic mean of precision and recall (so the notebook
    describes it), 0 when both are 0. *)
Definition f1_score (y_true y_pred : list Z) : Q :=
  let p := precision_score y_true y_pred in
  let r := recall_score y_true y_pred in
  if Qeq_bool (p + r) 0 then 0 else 2 * p * r / (p + r).

End Metrics.

(** ** Collaborative.ipynb *)

(** The order of [sorted(predictions, key=lambda x: x.est, reverse=True)]: [y]
    comes strictly before [x] when its estimate is strictly larger. *)
Definition by_estimate (y x : Prediction) : bool := Qlt_bool (est x) (est y).

(** The predictions [get_top_n_recommendations] keeps: the movies of [df] the
    user has no row for, each with the model's prediction, sorted by estimate
    in descending order and cut to the first [n]. *)
Definition top_preds (user_id : Z) (df : list Row) (model : Algo) (n : Z) : list Prediction :=
  let rated_movies := movieId <$> filter (λ r, userId r = user_id) df in
  let all_movies := unique (movieId <$> df) in
  let to_predict := filter (λ m, m ∉ rated_movies) all_movies in
  let predictions := (λ movie_id, predict model user_id movie_id None) <$> to_predict in
  slice_to n (sorted_by by_estimate predictions).

Definition movie_map (df : list Row) : gmap Z string :=
  to_dict (drop_duplicates (λ kv, kv) ((λ r, (movieId r, title r)) <$> df)).

Definition get_top_n_recommendations (user_id : Z) (df : list Row) (model : Algo) (n : Z)
    : list (string * Q) :=
  (λ pred, (default "Unknown"%string (movie_map df !! iid pred), round2 (est pred)))
    <$> top_preds user_id df model n.

(** The user has a row for the movie in the data set. *)
Definition rated (df : list Row) (user_id movie_id : Z) : Prop :=
  ∃ r, r ∈ df ∧ userId r = user_id ∧ movieId r = movie_id.

(** The evaluation cell. *)
Definition y_true (predictions : list Prediction) : option (list Q) := mapM r_ui predictions.
Definition y_pred (predictions : list Prediction) : list Q := est <$> predictions.

(** [rmse] and [mae] of the model on the test set. *)
Definition regression_metrics (model : Algo) (testset : list (Z * Z * Q)) : option (R * Q) :=
  let predictions := test model testset in
  yt ← y_true predictions;
  rmse ← Metrics.mean_squared_error yt (y_pred predictions) false;
  mae ← Metrics.mean_absolute_error yt (y_pred predictions);
  Some (rmse, mae).

(** [[1 if r >= threshold else 0 for r in ys]]. *)
Definition binarize (threshold : Q) (ys : list Q) : list Z :=
  (λ r, if Qle_bool threshold r then 1%Z else 0%Z) <$> ys.

Definition threshold : Q := 7 # 2.

Record ClassificationMetrics := {
  accuracy_val : option Q;
  precision_val : Q;
  recall_val : Q;
  f1_val : Q
}.

Definition classification_of (threshold : Q) (yt yp : list Q) : ClassificationMetrics :=
  let y_true_bin := binarize threshold yt in
  let y_pred_bin := binarize threshold yp in
  {| accuracy_val := Metrics.accuracy_score y_true_bin y_pred_bin;
     precision_val := Metrics.precision_score y_true_bin y_pred_bin;
     recall_val := Metrics.recall_score y_true_bin y_pred_bin;
     f1_val := Metrics.f1_score y_true_bin y_pred_bin |}.

Definition classification_metrics (model : Algo) (testset : list (Z * Z * Q)) (threshold : Q)
    : option ClassificationMetrics :=
  let predictions := test model testset in
  yt ← y_true predictions;
  Some (classification_of threshold yt (y_pred predictions)).

(** ** Hybrid.ipynb *)

(** *** The evaluation cell *)

(** A row of [pred_df] before [dropna]. *)
Record PredRow := {
  p_userId : Z;
  p_movieId : Z;
  actual : option Q;
  svd_pred : Q;
  p_vote_average : option Q
}.

(** A row of [pred_df] after [dropna], with its [hybrid_pred]. *)
Record HybridRow := {
  h_userId : Z;
  h_movieId : Z;
  h_actual : Q;
  h_svd_pred : Q;
  h_vote_average : Q;
  hybrid_pred : Q
}.

(** [df.drop_duplicates("movieId").set_index("movieId")["vote_average"]]. *)
Definition vote_avg (df : list Row) : gmap Z (option Q) :=
  to_dict ((λ r, (movieId r, vote_average r)) <$> drop_duplicates movieId df).

(** [pred_df] with its [vote_average] column, [pred_df["movieId"].map(vote_avg)]:
    a movie without an entry gets NaN. *)
Definition pred_df (df : list Row) (predictions : list Prediction) : list PredRow :=
  (λ p, {| p_userId := uid p; p_movieId := iid p; actual := r_ui p; svd_pred := est p;
           p_vote_average := mjoin (vote_avg df !! iid p) |}) <$> predictions.

(** [pred_df.dropna(inplace=True)] followed by
    [pred_df["hybrid_pred"] = (pred_df["svd_pred"] + pred_df["vote_average"]) / 2]. *)
Definition with_hybrid_pred (r : PredRow) : option HybridRow :=
  a ← actual r;
  v ← p_vote_average r;
  Some {| h_userId := p_userId r; h_movieId := p_movieId r; h_actual := a;
          h_svd_pred := svd_pred r; h_vote_average := v;
          hybrid_pred := (svd_pred r + v) / 2 |}.

Definition hybrid_rows (df : list Row) (predictions : list Prediction) : list HybridRow :=
  omap with_hybrid_pred (pred_df df predictions).

(** The rows the hybrid evaluation scores, from the file as read. *)
Definition hybrid_evaluation_rows (raw : list Row) (model : Algo) (testset : list (Z * Z * Q))
    : list HybridRow :=
  let df := dropna_subset raw in
  hybrid_rows df (test model testset).

Definition hybrid_regression_metrics (raw : list Row) (model : Algo) (testset : list (Z * Z * Q))
    : option (R * Q) :=
  let rows := hybrid_evaluation_rows raw model testset in
  let y_true := h_actual <$> rows in
  let y_pred := hybrid_pred <$> rows in
  rmse ← Metrics.mean_squared_error y_true y_pred false;
  mae ← Metrics.mean_absolute_error y_true y_pred;
  Some (rmse, mae).

(** *** The recommender of app4.py *)

(** A row of the [recommendations] frame. *)
Record Recommendation := {
  rec_movieId : Z;
  rec_title : string;
  rec_vote_average : option Q;
  rec_genres : string;
  svd_score : Q;
  hybrid_score : option Q
}.

Inductive HybridResult :=
  | NotFound (message : string)
  | Recommendations (rows : list Recommendation).

(** Descending order of [hybrid_score], NaN last. *)
Definition hybrid_before (y x : Recommendation) : bool :=
  match hybrid_score y, hybrid_score x with
  | Some a, Some b => Qlt_bool b a
  | Some _, None => true
  | None, _ => false
  end.

Section app4.
(** The data frame and the fitted model are globals of the script;
    [kneighbors i] stands for [knn_model.kneighbors(tfidf_matrix[i], n_neighbors=200)]:
    the positions of the rows nearest to row [i], nearest first. *)
Variable df : list Row.
Variable svd_model : Algo.
Variable kneighbors : nat → list nat.

(** [title_to_index[movie_title]]: the positions of the rows with that title. *)
Definition title_to_index (movie_title : string) : list nat :=
  fst <$> filter (λ ir, title ir.2 = movie_title) (imap (λ i r, (i, r)) df).

(** [df.iloc[movie_indices]]; a position outside the frame is an error. *)
Definition iloc (movie_indices : list nat) : option (list Row) :=
  mapM (λ i, df !! i) movie_indices.

Definition score (user_id : Z) (r : Row) : Recommendation :=
  let s := est (predict svd_model user_id (movieId r) None) in
  {| rec_movieId := movieId r; rec_title := title r;
     rec_vote_average := vote_average r; rec_genres := genres r;
     svd_score := s;
     hybrid_score := (λ v, (v + s) / 2) <$> vote_average r |}.

Definition recommend_hybrid (movie_title : string) (user_id : Z) (n : Z)
    : option HybridResult :=
  match title_to_index movie_title with
  | [] => Some (NotFound ("Movie '" +:+ movie_title +:+ "' not found in dataset."))
  | idx :: _ =>
      let indices := kneighbors idx in
      let movie_indices := drop 1 indices in
      recommendations ← iloc movie_indices;
      let recommendations := drop_duplicates title recommendations in
      let recommendations := score user_id <$> recommendations in
      Some (Recommendations (slice_to n (sorted_by hybrid_before recommendations)))
  end.
End app4.

(** ** The regression metrics as section 4.4 of the specification words them

    [rmse = sqrt(mean((r_hat - r)^2))] and [mae = mean(|r_hat - r|)], the means
    taken over the ratings of the test set. *)

Definition mean (xs : list Q) : Q := Qsum xs / inject_Z (Z.of_nat (length xs)).

Definition spec_rmse (model : Algo) (testset : list (Z * Z * Q)) : R :=
  sqrt (Q2R (mean ((λ t, (model t.1.1 t.1.2 - t.2) * (model t.1.1 t.1.2 - t.2)) <$> testset))).

Definition spec_mae (model : Algo) (testset : list (Z * Z * Q)) : Q :=
  mean ((λ t, Qabs (model t.1.1 t.1.2 - t.2)) <$> testset).

(** ** Further parts of the notebooks *)

(** [to_predict] of [get_top_n_recommendations]: the distinct movies of the
    frame, in order of first appearance, without those the user has a row for. *)
Definition to_predict (user_id : Z) (df : list Row) : list Z :=
  let rated_movies := movieId <$> filter (λ r, userId r = user_id) df in
  let all_movies := unique (movieId <$> df) in
  filter (λ m, m ∉ rated_movies) all_movies.

(** [title_map] of app1.py:
    [df[['title', 'movieId']].drop_duplicates().set_index('title')['movieId'].to_dict()]. *)
Definition title_map (df : list Row) : gmap string Z :=
  foldl (λ m kv, <[kv.1 := kv.2]> m) ∅
    (drop_duplicates (λ kv, kv) ((λ r, (title r, movieId r)) <$> df)).

(** The labels and classification metrics of the hybrid evaluation cell:
    [y_true_bin = (y_true >= 3.5).astype(int)],
    [y_pred_bin = (y_pred >= 3.5).astype(int)] with [y_pred] the [hybrid_pred]
    column. *)
Definition hybrid_y_pred_bin (raw : list Row) (model : Algo) (testset : list (Z * Z * Q))
    : list Z :=
  binarize (7 # 2) (hybrid_pred <$> hybrid_evaluation_rows raw model testset).

Definition hybrid_classification_metrics (raw : list Row) (model : Algo)
    (testset : list (Z * Z * Q)) : ClassificationMetrics :=
  let rows := hybrid_evaluation_rows raw model testset in
  classification_of (7 # 2) (h_actual <$> rows) (hybrid_pred <$> rows).

(** The order [recommend_hybrid] leaves its rows in: [a] may stand in front of
    [b] when its [hybrid_score] is not lower, or when [b] has none. *)
Definition no_lower_score (a b : Recommendation) : Prop :=
  match hybrid_score a, hybrid_score b with
  | Some x, Some y => y <= x
  | None, Some _ => False
  | _, None => True
  end.

(** ** Sample data used to exercise the statements *)

Module Samples.
Import LatentFactorModel.

(** Five rating rows: user 1 rated movies 10 and 20; user 2 rated 10, 30, 40. *)
Definition df : list Row :=
  [ {| userId := 1; movieId := 10; rating := 4; title := "Alpha";
       vote_average := Some 7; genres := "Drama" |};
    {| userId := 1; movieId := 20; rating := 3; title := "Beta";
       vote_average := Some (13 # 2); genres := "Comedy" |};
    {| userId := 2; movieId := 10; rating := 5; title := "Alpha";
       vote_average := Some 7; genres := "Drama" |};
    {| userId := 2; movieId := 30; rating := 2; title := "Gamma";
       vote_average := None; genres := "Drama" |};
    {| userId := 2; movieId := 40; rating := 4; title := "Delta";
       vote_average := Some 8; genres := "Drama" |} ].

(** An estimator: a tenth of the movie number, clipped to the scale. *)
Definition algo : Algo := λ _ i, clip (1 # 2) 5 (inject_Z i / 10).

(** Every row's neighbours: itself first, then all rows in order. *)
Definition kneighbors : nat → list nat := λ i, [i; 0; 1; 2; 3; 4]%nat.

(** The toy set of section 8: actual 5.0 predicted 4.0, actual 2.0 predicted 4.5. *)
Definition toy_testset : list (Z * Z * Q) := [(1%Z, 1%Z, 5); (1%Z, 2%Z, 2)].
Definition toy_model : Algo := λ _ i, if decide (i = 1%Z) then 4 else 9 # 2.

(** A model that knows user 1 and movie 120, with two latent factors. *)
Definition model : LatentFactorModel.t :=
  {| mu := 7 # 2;
     b_u := {[ 1%Z := 1 # 4 ]};
     b_i := {[ 120%Z := - (1 # 2) ]};
     P := {[ 1%Z := [1 # 10; 2 # 10] ]};
     Qi := {[ 120%Z := [1; 1 # 2] ]} |}.

(** A model whose raw estimate for (1, 120) exceeds the scale. *)
Definition steep : LatentFactorModel.t :=
  {| mu := 4;
     b_u := {[ 1%Z := 1 ]};
     b_i := {[ 120%Z := 1 ]};
     P := {[ 1%Z := [2] ]};
     Qi := {[ 120%Z := [3] ]} |}.
End Samples.

(** * Properties *)

(** ** The prediction: formula, clipping, fallback *)

Lemma clip_bounds (lo hi x : Q) : lo <= hi → lo <= clip lo hi x <= hi.
Proof.
  intros Hle. unfold clip. split.
  - apply Q.le_max_l.
  - apply Q.max_lub; [exact Hle | apply Q.le_min_l].
Qed.

Lemma clip_Qeq (lo hi x y : Q) : x == y → clip lo hi x == clip lo hi y.
Proof. intros E. unfold clip. now rewrite E. Qed.

Lemma dot_nil_l (q : list Q) : dot [] q = 0.
Proof. reflexivity. Qed.

Lemma dot_nil_r (p : list Q) : dot p [] = 0.
Proof. now destruct p. Qed.

Section predict.
Import LatentFactorModel.
Variable m : LatentFactorModel.t.

Lemma knows_user_Some u b : b_u m !! u = Some b → knows_user m u = true.
Proof. intros E. unfold knows_user. apply bool_decide_eq_true. rewrite E. eauto. Qed.

Lemma knows_item_Some i b : b_i m !! i = Some b → knows_item m i = true.
Proof. intros E. unfold knows_item. apply bool_decide_eq_true. rewrite E. eauto. Qed.

Lemma unknown_user u :
  knows_user m u = false → user_bias m u = 0 ∧ user_factors m u = [].
Proof.
  intros K. unfold user_bias, user_factors. rewrite K. split; [|done].
  unfold knows_user in K. apply bool_decide_eq_false in K.
  destruct (b_u m !! u) eqn:E; [|done]. exfalso. apply K. eauto.
Qed.

Lemma unknown_item i :
  knows_item m i = false → item_bias m i = 0 ∧ item_factors m i = [].
Proof.
  intros K. unfold item_bias, item_factors. rewrite K. split; [|done].
  unfold knows_item in K. apply bool_decide_eq_false in K.
  destruct (b_i m !! i) eqn:E; [|done]. exfalso. apply K. eauto.
Qed.

Lemma predict_in_scale u i : 1 # 2 <= predict m u i <= 5.
Proof. unfold predict. apply clip_bounds. done. Qed.

Lemma predict_unknown_user u i bi :
  knows_user m u = false → b_i m !! i = Some bi →
  predict m u i == clip (1 # 2) 5 (mu m + bi).
Proof.
  intros Ku Hbi. unfold predict, estimate. simpl.
  destruct (unknown_user u Ku) as [-> ->].
  unfold item_bias. rewrite Hbi. simpl. apply clip_Qeq. ring.
Qed.

Lemma predict_unknown_item u i bu :
  knows_item m i = false → b_u m !! u = Some bu →
  predict m u i == clip (1 # 2) 5 (mu m + bu).
Proof.
  intros Ki Hbu. unfold predict, estimate. simpl.
  destruct (unknown_item i Ki) as [-> ->].
  unfold user_bias. rewrite Hbu, dot_nil_r. simpl. apply clip_Qeq. ring.
Qed.

Lemma predict_unknown_both u i :
  knows_user m u = false → knows_item m i = false →
  predict m u i == clip (1 # 2) 5 (mu m).
Proof.
  intros Ku Ki. unfold predict, estimate. simpl.
  destruct (unknown_user u Ku) as [-> ->].
  destruct (unknown_item i Ki) as [-> ->]. simpl. apply clip_Qeq. ring.
Qed.
End predict.

(** C1. For a user [u] and an item [i] the model knows, [predict] is
    [mu + b_u[u] + b_i[i] + dot(P[u], Q[i])] clipped to the rating scale of the
    reader, and the prediction for any pair, known or not, lies in [[0.5, 5.0]]. *)
Theorem predict_is_clipped_estimate (m : LatentFactorModel.t) :
  (∀ (u i : Z) (bu bi : Q) (pu qi : list Q),
     LatentFactorModel.b_u m !! u = Some bu →
     LatentFactorModel.b_i m !! i = Some bi →
     LatentFactorModel.P m !! u = Some pu →
     LatentFactorModel.Qi m !! i = Some qi →
     LatentFactorModel.predict m u i
       = clip (fst rating_scale) (snd rating_scale)
           (LatentFactorModel.mu m + bu + bi + dot pu qi))
  ∧ rating_scale = (1 # 2, 5)
  ∧ ∀ u i, 1 # 2 <= LatentFactorModel.predict m u i <= 5.
Proof.
  split; [|split; [reflexivity | apply predict_in_scale]].
  intros u i bu bi pu qi Hbu Hbi Hp Hq.
  unfold LatentFactorModel.predict, LatentFactorModel.estimate,
    LatentFactorModel.user_bias, LatentFactorModel.item_bias,
    LatentFactorModel.user_factors, LatentFactorModel.item_factors.
  rewrite (knows_user_Some m u bu Hbu), (knows_item_Some m i bi Hbi).
  rewrite Hbu, Hbi, Hp, Hq. reflexivity.
Qed.

Lemma predict_is_clipped_estimate_witness :
  LatentFactorModel.predict Samples.model 1 120
    = clip (1 # 2) 5 ((7 # 2) + (1 # 4) + - (1 # 2) + dot [1 # 10; 2 # 10] [1; 1 # 2])
  ∧ 1 # 2 <= LatentFactorModel.predict Samples.model 1 120 <= 5.
Proof.
  split.
  - apply (proj1 (predict_is_clipped_estimate Samples.model) 1%Z 120%Z); reflexivity.
  - apply (proj2 (proj2 (predict_is_clipped_estimate Samples.model))).
Defined.

(** On the sample model the pair (1, 120) is predicted
    3.5 + 0.25 - 0.5 + (0.1 * 1 + 0.2 * 0.5) = 3.45, inside the scale. *)
Example predict_sample : LatentFactorModel.predict Samples.model 1 120 == 345 # 100.
Proof. vm_compute. reflexivity. Qed.

(** The clipping is not idle: the raw estimate 4 + 1 + 1 + 6 is cut to 5. *)
Example predict_steep : LatentFactorModel.predict Samples.steep 1 120 == 5.
Proof. vm_compute. reflexivity. Qed.

(** C2. The cold-start fallback: an unknown user leaves [mu + b_i[i]], an
    unknown item leaves [mu + b_u[u]], both unknown leave [mu], each clipped to
    the rating scale; [predict] is a total function, so a value is returned in
    every case. *)
Theorem predict_fallback (m : LatentFactorModel.t) (u i : Z) :
  (LatentFactorModel.knows_user m u = false →
   ∀ bi, LatentFactorModel.b_i m !! i = Some bi →
     LatentFactorModel.predict m u i == clip (1 # 2) 5 (LatentFactorModel.mu m + bi))
  ∧ (LatentFactorModel.knows_item m i = false →
     ∀ bu, LatentFactorModel.b_u m !! u = Some bu →
       LatentFactorModel.predict m u i == clip (1 # 2) 5 (LatentFactorModel.mu m + bu))
  ∧ (LatentFactorModel.knows_user m u = false →
     LatentFactorModel.knows_item m i = false →
     LatentFactorModel.predict m u i == clip (1 # 2) 5 (LatentFactorModel.mu m)).
Proof.
  split; [|split].
  - intros Ku bi Hbi. by apply predict_unknown_user.
  - intros Ki bu Hbu. by apply predict_unknown_item.
  - intros Ku Ki. by apply predict_unknown_both.
Qed.

Lemma predict_fallback_witness :
  LatentFactorModel.predict Samples.model 2 120 == clip (1 # 2) 5 ((7 # 2) + - (1 # 2))
  ∧ LatentFactorModel.predict Samples.model 1 999 == clip (1 # 2) 5 ((7 # 2) + (1 # 4))
  ∧ LatentFactorModel.predict Samples.model 2 999 == clip (1 # 2) 5 (7 # 2).
Proof.
  split; [|split].
  - apply (proj1 (predict_fallback Samples.model 2 120)); reflexivity.
  - apply (proj1 (proj2 (predict_fallback Samples.model 1 999))); reflexivity.
  - apply (proj2 (proj2 (predict_fallback Samples.model 2 999))); reflexivity.
Defined.

(** ** Sorting, slicing, rounding *)

Section sorting_facts.
Context {A : Type} (before : A → A → bool).
Hypothesis before_asym : ∀ a b, before a b = true → before b a = false.

Lemma insert_sorted_perm x l : insert_sorted before x l ≡ₚ x :: l.
Proof.
  induction l as [|y l IH]; simpl; [done|].
  destruct (before y x); [|done].
  rewrite IH. apply Permutation_swap.
Qed.

Lemma sorted_by_perm l : sorted_by before l ≡ₚ l.
Proof.
  induction l as [|x l IH]; simpl; [done|].
  rewrite insert_sorted_perm. by rewrite IH.
Qed.

Lemma insert_sorted_HdRel y x l :
  in_order before y x → HdRel (in_order before) y l → HdRel (in_order before) y (insert_sorted before x l).
Proof.
  intros Hyx Hl. destruct l as [|z l]; simpl; [by constructor|].
  inversion_clear Hl. destruct (before z x); by constructor.
Qed.

Lemma insert_sorted_Sorted x l :
  Sorted (in_order before) l → Sorted (in_order before) (insert_sorted before x l).
Proof.
  induction l as [|y l IH]; simpl; intros Hs.
  - repeat constructor.
  - inversion_clear Hs as [|? ? Hl Hhd].
    destruct (before y x) eqn:E.
    + constructor; [by apply IH|].
      apply insert_sorted_HdRel; [|done]. by apply before_asym.
    + constructor; [by constructor|]. by constructor.
Qed.

Lemma sorted_by_Sorted l : Sorted (in_order before) (sorted_by before l).
Proof.
  induction l as [|x l IH]; simpl; [constructor|].
  by apply insert_sorted_Sorted.
Qed.
End sorting_facts.

Lemma Sorted_weaken {A : Type} (R R' : relation A) (l : list A) :
  (∀ a b, R a b → R' a b) → Sorted R l → Sorted R' l.
Proof.
  intros HR. induction 1 as [|x l Hs IH Hhd]; constructor; [done|].
  destruct Hhd; constructor. by apply HR.
Qed.

Lemma StronglySorted_take {A : Type} (R : relation A) (n : nat) (l : list A) :
  StronglySorted R l → StronglySorted R (take n l).
Proof.
  intros Hs. revert n. induction Hs as [|x l Hs IH Hall]; intros [|n]; simpl;
    try constructor.
  - apply IH.
  - eapply Forall_forall. intros y Hy.
    eapply Forall_forall in Hall; [exact Hall|].
    by eapply subseteq_take.
Qed.

Lemma slice_to_subseteq {A : Type} (n : Z) (l : list A) : slice_to n l ⊆ l.
Proof. unfold slice_to. destruct (0 <=? n)%Z; apply subseteq_take. Qed.

Lemma slice_to_StronglySorted {A : Type} (R : relation A) (n : Z) (l : list A) :
  StronglySorted R l → StronglySorted R (slice_to n l).
Proof. unfold slice_to. destruct (0 <=? n)%Z; apply StronglySorted_take. Qed.

Lemma slice_to_length {A : Type} (n : Z) (l : list A) :
  (0 <= n)%Z → (Z.of_nat (length (slice_to n l)) <= n)%Z.
Proof.
  intros Hn. unfold slice_to.
  destruct (Z.leb_spec 0 n) as [_|?]; [|lia].
  pose proof (firstn_le_length (Z.to_nat n) l). lia.
Qed.

Lemma Qlt_bool_true x y : Qlt_bool x y = true ↔ x < y.
Proof.
  unfold Qlt_bool. rewrite negb_true_iff. split.
  - intros E. apply Qnot_le_lt. intros Hle.
    apply Qle_bool_iff in Hle. congruence.
  - intros Hlt. destruct (Qle_bool y x) eqn:E; [|done].
    apply Qle_bool_iff in E. exfalso. by apply (Qlt_not_le _ _ Hlt).
Qed.

Lemma Qlt_bool_false x y : Qlt_bool x y = false ↔ y <= x.
Proof.
  unfold Qlt_bool. rewrite negb_false_iff. apply Qle_bool_iff.
Qed.

Lemma round_half_even_bounds x :
  (Qfloor x <= round_half_even x <= Qfloor x + 1)%Z.
Proof.
  unfold round_half_even.
  destruct (Qcompare _ _); [destruct (Z.even _)| |]; lia.
Qed.

Lemma round_half_even_mono x y : x <= y → (round_half_even x <= round_half_even y)%Z.
Proof.
  intros Hxy.
  pose proof (Qfloor_resp_le x y Hxy) as Hf.
  pose proof (round_half_even_bounds x) as Hx.
  pose proof (round_half_even_bounds y) as Hy.
  destruct (Z.eq_dec (Qfloor x) (Qfloor y)) as [E|NE]; [|lia].
  clear Hx Hy Hf. unfold round_half_even. rewrite <- E.
  destruct (Qcompare_spec (x - inject_Z (Qfloor x)) (1 # 2)) as [Ex|Lx|Gx];
    destruct (Qcompare_spec (y - inject_Z (Qfloor x)) (1 # 2)) as [Ey|Ly|Gy];
    try destruct (Z.even (Qfloor x)); try lia; exfalso; lra.
Qed.

Lemma round2_mono x y : x <= y → round2 x <= round2 y.
Proof.
  intros Hxy. unfold round2.
  assert (H : (round_half_even (x * 100) <= round_half_even (y * 100))%Z).
  { apply round_half_even_mono. lra. }
  apply Qmult_le_compat_r; [|done].
  by rewrite <- Zle_Qle.
Qed.

(** ** Facts about the pandas helpers *)

Lemma drop_duplicates_from_subseteq {A K : Type} `{EqDecision K}
    (key : A → K) (seen : list K) (l : list A) :
  drop_duplicates_from key seen l ⊆ l.
Proof.
  revert seen. induction l as [|x l IH]; intros seen; simpl; [done|].
  destruct (decide (key x ∈ seen)).
  - intros y Hy. right. by apply (IH seen).
  - intros y Hy. apply elem_of_cons in Hy as [->|Hy]; [left|right; by apply (IH (key x :: seen))].
Qed.

Lemma drop_duplicates_from_keys {A K : Type} `{EqDecision K}
    (key : A → K) (seen : list K) (l : list A) (x : A) :
  x ∈ l → key x ∈ seen ∨ ∃ y, y ∈ drop_duplicates_from key seen l ∧ key y = key x.
Proof.
  revert seen. induction l as [|z l IH]; intros seen Hx; [by apply elem_of_nil in Hx|].
  simpl. apply elem_of_cons in Hx as [->|Hx].
  - destruct (decide (key z ∈ seen)); [by left|].
    right. exists z. split; [left|done].
  - destruct (decide (key z ∈ seen)).
    + apply (IH seen Hx).
    + destruct (IH (key z :: seen) Hx) as [Hin|(y & Hy & E)].
      * apply elem_of_cons in Hin as [E|Hin]; [|by left].
        right. exists z. split; [left|done].
      * right. exists y. split; [by right|done].
Qed.

Lemma drop_duplicates_subseteq {A K : Type} `{EqDecision K} (key : A → K) (l : list A) :
  drop_duplicates key l ⊆ l.
Proof. apply drop_duplicates_from_subseteq. Qed.

Lemma drop_duplicates_keys {A K : Type} `{EqDecision K} (key : A → K) (l : list A) (x : A) :
  x ∈ l → ∃ y, y ∈ drop_duplicates key l ∧ key y = key x.
Proof.
  intros Hx. destruct (drop_duplicates_from_keys key [] l x Hx) as [Hin|?]; [|done].
  by apply elem_of_nil in Hin.
Qed.

Lemma foldl_insert_lookup {V : Type} (kvs : list (Z * V)) (m : gmap Z V) (k : Z) :
  k ∈ kvs.*1 ∨ is_Some (m !! k) →
  ∃ v, foldl (λ m kv, <[kv.1 := kv.2]> m) m kvs !! k = Some v
       ∧ ((k, v) ∈ kvs ∨ m !! k = Some v).
Proof.
  revert m. induction kvs as [|[k' v'] kvs IH]; intros m Hk; simpl.
  - destruct Hk as [Hk|[v Hv]]; [by apply elem_of_nil in Hk|]. eauto.
  - destruct (IH (<[k' := v']> m)) as (v & Hv & Hfrom).
    { destruct (decide (k' = k)) as [->|Hne].
      - right. rewrite lookup_insert_eq. eauto.
      - destruct Hk as [Hk|Hk].
        + simpl in Hk. apply elem_of_cons in Hk as [E|Hk]; [congruence|by left].
        + right. by rewrite lookup_insert_ne. }
    exists v. split; [done|].
    destruct Hfrom as [Hin|Hm]; [left; by right|].
    destruct (decide (k' = k)) as [->|Hne].
    + rewrite lookup_insert_eq in Hm. injection Hm as <-. left. left.
    + rewrite lookup_insert_ne in Hm by done. by right.
Qed.

Lemma to_dict_lookup {V : Type} (kvs : list (Z * V)) (k : Z) :
  k ∈ kvs.*1 → ∃ v, to_dict kvs !! k = Some v ∧ (k, v) ∈ kvs.
Proof.
  intros Hk. destruct (foldl_insert_lookup kvs ∅ k) as (v & Hv & [Hin|He]); [by left|..].
  - by exists v.
  - by rewrite lookup_empty in He.
Qed.

Lemma drop_duplicates_from_NoDup {A K : Type} `{EqDecision K}
    (key : A → K) (seen : list K) (l : list A) :
  NoDup (key <$> drop_duplicates_from key seen l)
  ∧ ∀ y, y ∈ drop_duplicates_from key seen l → key y ∉ seen.
Proof.
  revert seen. induction l as [|x l IH]; intros seen; simpl.
  - split; [constructor|]. intros y Hy. by apply elem_of_nil in Hy.
  - destruct (decide (key x ∈ seen)) as [Hin|Hnin]; [apply IH|].
    destruct (IH (key x :: seen)) as [Hnd Hfresh]. split.
    + rewrite fmap_cons. constructor; [|done].
      intros Hx. apply list_elem_of_fmap in Hx as (y & E & Hy).
      apply (Hfresh y Hy). rewrite <- E. left.
    + intros y Hy. apply elem_of_cons in Hy as [->|Hy]; [done|].
      intros Hs. apply (Hfresh y Hy). by right.
Qed.

Lemma unique_NoDup {A : Type} `{EqDecision A} (l : list A) : NoDup (unique l).
Proof.
  unfold unique, drop_duplicates.
  destruct (drop_duplicates_from_NoDup (λ x : A, x) [] l) as [Hnd _].
  by rewrite list_fmap_id in Hnd.
Qed.

Lemma elem_of_unique {A : Type} `{EqDecision A} (l : list A) (x : A) :
  x ∈ unique l ↔ x ∈ l.
Proof.
  unfold unique. split.
  - apply drop_duplicates_subseteq.
  - intros Hx. by destruct (drop_duplicates_keys (λ x : A, x) l x Hx) as (y & Hy & ->).
Qed.

(** ** get_top_n_recommendations *)

Lemma by_estimate_asym a b : by_estimate a b = true → by_estimate b a = false.
Proof.
  unfold by_estimate. rewrite Qlt_bool_true, Qlt_bool_false. apply Qlt_le_weak.
Qed.

Lemma sorted_by_estimate l :
  StronglySorted (λ a b, est b <= est a) (sorted_by by_estimate l).
Proof.
  apply Sorted_StronglySorted.
  - intros a b c Hab Hbc. by apply Qle_trans with (est b).
  - eapply Sorted_weaken; [|apply sorted_by_Sorted, by_estimate_asym].
    intros a b. unfold in_order, by_estimate. by rewrite Qlt_bool_false.
Qed.

Lemma rated_movies_elem_of (df : list Row) (user_id movie_id : Z) :
  movie_id ∈ movieId <$> filter (λ r, userId r = user_id) df ↔ rated df user_id movie_id.
Proof.
  rewrite list_elem_of_fmap. unfold rated. split.
  - intros (r & -> & Hr). apply list_elem_of_filter in Hr as [? ?]. eauto.
  - intros (r & Hr & Hu & <-). exists r. split; [done|].
    apply list_elem_of_filter. done.
Qed.

Lemma top_preds_elem_of user_id df model n p :
  p ∈ top_preds user_id df model n →
  uid p = user_id ∧ est p = model user_id (iid p) ∧ ¬ rated df user_id (iid p).
Proof.
  unfold top_preds. intros Hp.
  apply slice_to_subseteq in Hp.
  rewrite sorted_by_perm in Hp.
  apply list_elem_of_fmap in Hp as (movie_id & -> & Hm).
  apply list_elem_of_filter in Hm as [Hm _]. simpl.
  by rewrite <- rated_movies_elem_of.
Qed.

(** C10. For a non-negative [n], [get_top_n_recommendations] returns at most
    [n] (title, score) pairs, one per kept prediction; the kept predictions are
    in non-increasing order of the model's estimate, and so are the rounded
    scores returned; every kept prediction is the model's estimate for a movie
    the user has no rating row for. *)
Theorem get_top_n_recommendations_spec (user_id : Z) (df : list Row) (model : Algo) (n : Z) :
  (0 <= n)%Z →
  (Z.of_nat (length (get_top_n_recommendations user_id df model n)) <= n)%Z
  ∧ get_top_n_recommendations user_id df model n
      = (λ p, (default "Unknown"%string (movie_map df !! iid p), round2 (est p)))
          <$> top_preds user_id df model n
  ∧ StronglySorted (λ a b, est b <= est a) (top_preds user_id df model n)
  ∧ StronglySorted (λ a b, snd b <= snd a) (get_top_n_recommendations user_id df model n)
  ∧ Forall (λ p, est p = model user_id (iid p) ∧ ¬ rated df user_id (iid p))
      (top_preds user_id df model n).
Proof.
  intros Hn.
  assert (Hsorted : StronglySorted (λ a b, est b <= est a) (top_preds user_id df model n)).
  { unfold top_preds. apply slice_to_StronglySorted, sorted_by_estimate. }
  split; [|split; [|split; [|split]]].
  - unfold get_top_n_recommendations, top_preds.
    rewrite length_fmap. by apply slice_to_length.
  - reflexivity.
  - done.
  - unfold get_top_n_recommendations.
    eapply StronglySorted_fmap; [|exact Hsorted].
    intros a b Hab. simpl. by apply round2_mono.
  - apply Forall_forall. intros p Hp.
    by destruct (top_preds_elem_of _ _ _ _ _ Hp) as (_ & ? & ?).
Qed.

(** No movie is recommended twice. *)
Lemma top_preds_NoDup (user_id : Z) (df : list Row) (model : Algo) (n : Z) :
  NoDup (iid <$> top_preds user_id df model n).
Proof.
  unfold top_preds.
  set (rated_movies := movieId <$> filter (λ r, userId r = user_id) df).
  set (to_predict := filter (λ m, m ∉ rated_movies) (unique (movieId <$> df))).
  set (predictions := (λ movie_id, predict model user_id movie_id None) <$> to_predict).
  assert (Hnd : NoDup (iid <$> sorted_by by_estimate predictions)).
  { rewrite sorted_by_perm. unfold predictions.
    rewrite <- list_fmap_compose, list_fmap_id.
    apply NoDup_filter, unique_NoDup. }
  unfold slice_to. destruct (0 <=? n)%Z; rewrite fmap_take;
    (eapply sublist_NoDup; [exact Hnd | apply sublist_take]).
Qed.

(** The kept predictions are the best ones: a movie of the data set that the
    user has not rated and that was not kept is predicted no higher than any
    kept one. *)
Lemma top_preds_best (user_id : Z) (df : list Row) (model : Algo) (n : Z)
    (p : Prediction) (movie_id : Z) :
  (0 <= n)%Z →
  p ∈ top_preds user_id df model n →
  movie_id ∈ movieId <$> df →
  ¬ rated df user_id movie_id →
  movie_id ∉ iid <$> top_preds user_id df model n →
  model user_id movie_id <= est p.
Proof.
  unfold top_preds, slice_to. intros Hn. destruct (Z.leb_spec 0 n) as [_|?]; [|lia].
  set (rated_movies := movieId <$> filter (λ r, userId r = user_id) df).
  set (to_predict := filter (λ m, m ∉ rated_movies) (unique (movieId <$> df))).
  set (predictions := (λ movie_id, predict model user_id movie_id None) <$> to_predict).
  intros Hp Hm Hnr Hout.
  set (q := predict model user_id movie_id None).
  assert (Hq : q ∈ sorted_by by_estimate predictions).
  { rewrite sorted_by_perm. apply list_elem_of_fmap. exists movie_id. split; [done|].
    apply list_elem_of_filter. split; [|by apply elem_of_unique].
    unfold rated_movies. by rewrite rated_movies_elem_of. }
  rewrite <- (take_drop (Z.to_nat n)) in Hq. apply elem_of_app in Hq as [Hq|Hq].
  - exfalso. apply Hout. apply list_elem_of_fmap. by exists q.
  - apply (StronglySorted_app_1_elem_of (λ a b, est b <= est a)
             (take (Z.to_nat n) (sorted_by by_estimate predictions))
             (drop (Z.to_nat n) (sorted_by by_estimate predictions)) p q); [|done|done].
    rewrite take_drop. apply sorted_by_estimate.
Qed.

(** ** The evaluation cells *)

(** After [dropna] every movie of the frame has a [vote_average] to map to. *)
Lemma vote_avg_present (raw : list Row) (r : Row) :
  r ∈ dropna_subset raw →
  ∃ v, mjoin (vote_avg (dropna_subset raw) !! movieId r) = Some v.
Proof.
  intros Hr. unfold vote_avg.
  destruct (drop_duplicates_keys movieId _ r Hr) as (y & Hy & Ey).
  destruct (to_dict_lookup
    ((λ r, (movieId r, vote_average r)) <$> drop_duplicates movieId (dropna_subset raw))
    (movieId r)) as (v & Hv & Hin).
  { rewrite <- list_fmap_compose. apply list_elem_of_fmap. exists y. done. }
  rewrite Hv. simpl.
  apply list_elem_of_fmap in Hin as (z & Ez & Hz). injection Ez as _ ->.
  apply drop_duplicates_subseteq in Hz.
  unfold dropna_subset in Hz. apply list_elem_of_filter in Hz as [[q Hq] _].
  exists q. done.
Qed.

Lemma y_true_test (model : Algo) (testset : list (Z * Z * Q)) :
  y_true (test model testset) = Some (snd <$> testset).
Proof.
  unfold y_true, test. apply mapM_Some_2.
  induction testset as [|t l IH]; [constructor|].
  rewrite !fmap_cons. by constructor.
Qed.

Lemma y_pred_test (model : Algo) (testset : list (Z * Z * Q)) :
  y_pred (test model testset) = (λ t, model t.1.1 t.1.2) <$> testset.
Proof. unfold y_pred, test. by rewrite <- list_fmap_compose. Qed.

Lemma zip_with_fmap_same {A B C D : Type} (f : B → C → D) (g : A → B) (h : A → C) (l : list A) :
  zip_with f (g <$> l) (h <$> l) = (λ x, f (g x) (h x)) <$> l.
Proof. induction l as [|x l IH]; [done|]. rewrite !fmap_cons. simpl. by rewrite IH. Qed.

Lemma Qsum_fmap_Qeq {A : Type} (f g : A → Q) (l : list A) :
  (∀ x, f x == g x) → Qsum (f <$> l) == Qsum (g <$> l).
Proof.
  intros E. induction l as [|x l IH]; simpl; [reflexivity|].
  unfold Qsum in *. simpl. by rewrite IH, (E x).
Qed.

Lemma average_fmap_nonempty {A : Type} (f : A → Q) (l : list A) :
  l ≠ [] → Metrics.average (f <$> l) = Some (mean (f <$> l)).
Proof. by destruct l. Qed.

Lemma mean_fmap_Qeq {A : Type} (f g : A → Q) (l : list A) :
  (∀ x, f x == g x) → mean (f <$> l) == mean (g <$> l).
Proof.
  intros E. unfold mean. rewrite !length_fmap.
  by rewrite (Qsum_fmap_Qeq f g l E).
Qed.

Lemma check_consistent_length_fmap {A B C : Type} (g : A → B) (h : A → C) (l : list A) :
  Metrics.check_consistent_length (g <$> l) (h <$> l) = true.
Proof.
  unfold Metrics.check_consistent_length. apply bool_decide_eq_true.
  by rewrite !length_fmap.
Qed.

Lemma Qabs_minus_sym (a b : Q) : Qabs (a - b) == Qabs (b - a).
Proof.
  rewrite <- (Qabs_opp (b - a)).
  apply Qabs_wd. ring.
Qed.

(** A test rating whose movie has a [vote_average] entry yields one row. *)
Lemma hybrid_evaluation_rows_cons (raw : list Row) (model : Algo) (t : Z * Z * Q)
    (l : list (Z * Z * Q)) (v : Q) :
  mjoin (vote_avg (dropna_subset raw) !! t.1.2) = Some v →
  hybrid_evaluation_rows raw model (t :: l)
  = {| h_userId := t.1.1; h_movieId := t.1.2; h_actual := t.2;
       h_svd_pred := model t.1.1 t.1.2; h_vote_average := v;
       hybrid_pred := (model t.1.1 t.1.2 + v) / 2 |}
    :: hybrid_evaluation_rows raw model l.
Proof.
  intros Hv. unfold hybrid_evaluation_rows, hybrid_rows, pred_df, test.
  rewrite !fmap_cons. cbn [omap list_omap]. unfold with_hybrid_pred at 1.
  cbn [actual p_vote_average predict r_ui iid uid est p_userId p_movieId svd_pred].
  rewrite Hv. reflexivity.
Qed.

(** The test set reaches the hybrid evaluation whole when it is drawn from
    the frame the cell keeps after its first [dropna]. *)
Lemma hybrid_rows_complete (raw : list Row) (model : Algo) (testset : list (Z * Z * Q)) :
  Forall (λ t, t ∈ load_from_df (dropna_subset raw)) testset →
  h_actual <$> hybrid_evaluation_rows raw model testset = snd <$> testset
  ∧ length (hybrid_evaluation_rows raw model testset) = length testset.
Proof.
  induction 1 as [|t l Ht Hl [IH1 IH2]]; [done|].
  unfold load_from_df in Ht.
  apply list_elem_of_fmap in Ht as (r & -> & Hr).
  destruct (vote_avg_present raw r Hr) as (v & Hv).
  rewrite (hybrid_evaluation_rows_cons raw model (userId r, movieId r, rating r) l v Hv).
  rewrite !fmap_cons. simpl. split; [by rewrite IH1 | by rewrite IH2].
Qed.

(** What the evaluation cell computes, as the cell writes it: differences
    taken as [y_true - y_pred]. *)
Lemma regression_metrics_eq (model : Algo) (testset : list (Z * Z * Q)) :
  testset ≠ [] →
  regression_metrics model testset
  = Some (sqrt (Q2R (mean ((λ t, (t.2 - model t.1.1 t.1.2) * (t.2 - model t.1.1 t.1.2))
                             <$> testset))),
          mean ((λ t, Qabs (t.2 - model t.1.1 t.1.2)) <$> testset)).
Proof.
  intros Hne. unfold regression_metrics. rewrite y_true_test, y_pred_test.
  cbn [mbind option_bind].
  unfold Metrics.mean_squared_error, Metrics.mean_squared, Metrics.mean_absolute_error.
  rewrite check_consistent_length_fmap, !zip_with_fmap_same.
  rewrite !average_fmap_nonempty by done. reflexivity.
Qed.

(** A test rating whose user and item the model has never seen is scored all
    the same, by the fallback prediction. *)
Lemma cold_start_rating_is_scored (m : LatentFactorModel.t) (testset : list (Z * Z * Q))
    (k : nat) (u i : Z) (r : Q) :
  testset !! k = Some (u, i, r) →
  LatentFactorModel.knows_user m u = false →
  LatentFactorModel.knows_item m i = false →
  ∃ e, y_pred (test (svd m) testset) !! k = Some e
       ∧ e == clip (1 # 2) 5 (LatentFactorModel.mu m).
Proof.
  intros Hk Ku Ki. rewrite y_pred_test, list_lookup_fmap, Hk. simpl.
  eexists. split; [reflexivity|]. by apply predict_unknown_both.
Qed.

(** The hybrid cell gets its two metrics whenever the test set is not empty
    and drawn from the frame. *)
Lemma hybrid_regression_metrics_returns (raw : list Row) (model : Algo)
    (testset : list (Z * Z * Q)) :
  testset ≠ [] →
  Forall (λ t, t ∈ load_from_df (dropna_subset raw)) testset →
  is_Some (hybrid_regression_metrics raw model testset).
Proof.
  intros Hne Hin. unfold hybrid_regression_metrics.
  destruct (hybrid_rows_complete raw model testset Hin) as [_ Hlen].
  assert (Hrows : hybrid_evaluation_rows raw model testset ≠ []).
  { intros E. rewrite E in Hlen. by destruct testset. }
  unfold Metrics.mean_squared_error, Metrics.mean_squared, Metrics.mean_absolute_error.
  rewrite check_consistent_length_fmap, !zip_with_fmap_same.
  rewrite !average_fmap_nonempty by done. by eexists.
Qed.

(** C7. On a non-empty test set the evaluation cell returns
    [rmse = sqrt(mean((r_hat - r)^2))] and [mae = mean(|r_hat - r|)] with both
    means over all ratings of the test set: one prediction per test rating,
    whatever the model knows of its user and item.  The [dropna] of the hybrid
    evaluation removes no test rating either, the test set being drawn from
    the frame that was already cleared of empty cells. *)
Theorem regression_metrics_over_test_set (model : Algo) (testset : list (Z * Z * Q)) :
  testset ≠ [] →
  (∃ rmse mae,
      regression_metrics model testset = Some (rmse, mae)
      ∧ rmse = spec_rmse model testset
      ∧ mae == spec_mae model testset)
  ∧ length (y_pred (test model testset)) = length testset
  ∧ ∀ raw, Forall (λ t, t ∈ load_from_df (dropna_subset raw)) testset →
      h_actual <$> hybrid_evaluation_rows raw model testset = snd <$> testset
      ∧ length (hybrid_evaluation_rows raw model testset) = length testset.
Proof.
  intros Hne. split; [|split].
  - rewrite (regression_metrics_eq model testset Hne).
    eexists _, _. split; [reflexivity|]. split.
    + unfold spec_rmse. f_equal. apply Qeq_eqR.
      apply mean_fmap_Qeq. intros x. ring.
    + unfold spec_mae. apply mean_fmap_Qeq.
      intros x. apply Qabs_minus_sym.
  - by rewrite y_pred_test, length_fmap.
  - intros raw. apply hybrid_rows_complete.
Qed.

Lemma regression_metrics_over_test_set_witness :
  (∃ rmse mae,
      regression_metrics Samples.toy_model Samples.toy_testset = Some (rmse, mae)
      ∧ rmse = spec_rmse Samples.toy_model Samples.toy_testset
      ∧ mae == spec_mae Samples.toy_model Samples.toy_testset)
  ∧ length (y_pred (test Samples.toy_model Samples.toy_testset)) = length Samples.toy_testset
  ∧ ∀ raw, Forall (λ t, t ∈ load_from_df (dropna_subset raw)) Samples.toy_testset →
      h_actual <$> hybrid_evaluation_rows raw Samples.toy_model Samples.toy_testset
        = snd <$> Samples.toy_testset
      ∧ length (hybrid_evaluation_rows raw Samples.toy_model Samples.toy_testset)
        = length Samples.toy_testset.
Proof.
  apply (regression_metrics_over_test_set Samples.toy_model Samples.toy_testset).
  discriminate.
Defined.

(** On the toy set: mae = (|5 - 4| + |2 - 4.5|) / 2 = 7/4, and the mean of the
    squared errors is (1 + 6.25) / 2 = 29/8. *)
Example toy_errors :
  spec_mae Samples.toy_model Samples.toy_testset == 7 # 4
  ∧ Metrics.mean_squared [5; 2] [4; 9 # 2] = Some (29 # 8).
Proof. split; vm_compute; reflexivity. Qed.

(** On the sample frame two test ratings of user 2 are both scored, with
    [hybrid_pred] (1 + 7) / 2 and (4 + 8) / 2. *)
Example hybrid_evaluation_sample :
  (λ h, (h_movieId h, h_actual h, hybrid_pred h))
    <$> hybrid_evaluation_rows Samples.df Samples.algo [(2%Z, 10%Z, 5); (2%Z, 40%Z, 4)]
  = [(10%Z, 5, 80 # 20); (40%Z, 4, 120 # 20)].
Proof. vm_compute. reflexivity. Qed.

(** The premise on the test set matters: a rating of a movie that has no
    [vote_average] in the frame (it cannot come from the split of that frame)
    would be dropped. *)
Example hybrid_evaluation_outside_frame :
  hybrid_evaluation_rows Samples.df Samples.algo [(2%Z, 30%Z, 2)] = [].
Proof. vm_compute. reflexivity. Qed.

(** ** Binary classification *)

Lemma binarize_lookup (threshold : Q) (ys : list Q) (k : nat) (r : Q) :
  ys !! k = Some r →
  binarize threshold ys !! k = Some (if Qle_bool threshold r then 1%Z else 0%Z).
Proof. intros E. unfold binarize. by rewrite list_lookup_fmap, E. Qed.

Lemma binarize_below (threshold : Q) (ys : list Q) :
  Forall (λ r, r < threshold) ys → filter (λ p, p = 1%Z) (binarize threshold ys) = [].
Proof.
  induction 1 as [|r l Hr Hl IH]; [done|].
  unfold binarize in *. rewrite fmap_cons.
  destruct (Qle_bool threshold r) eqn:E.
  - apply Qle_bool_iff in E. exfalso. by apply (Qlt_not_le _ _ Hr).
  - rewrite filter_cons_False by done. exact IH.
Qed.

Lemma prf_divide_zero (numerator : nat) : Metrics.prf_divide numerator 0 = 0.
Proof. reflexivity. Qed.

Lemma f1_zero_l (y_true y_pred : list Z) :
  Metrics.precision_score y_true y_pred = 0 → Metrics.f1_score y_true y_pred == 0.
Proof.
  intros E. unfold Metrics.f1_score. rewrite E.
  destruct (Qeq_bool _ _); [reflexivity|].
  unfold Qdiv. ring.
Qed.

Lemma f1_zero_r (y_true y_pred : list Z) :
  Metrics.recall_score y_true y_pred = 0 → Metrics.f1_score y_true y_pred == 0.
Proof.
  intros E. unfold Metrics.f1_score. rewrite E.
  destruct (Qeq_bool _ _); [reflexivity|].
  unfold Qdiv. ring.
Qed.

Lemma classification_metrics_eq (model : Algo) (testset : list (Z * Z * Q)) (thr : Q) :
  classification_metrics model testset thr
  = Some (classification_of thr (snd <$> testset) ((λ t, model t.1.1 t.1.2) <$> testset)).
Proof.
  unfold classification_metrics. by rewrite y_true_test, y_pred_test.
Qed.

(** C8. Both the actual and the predicted ratings are turned into labels at
    the same threshold, 1 for a value at or above it and 0 otherwise, and on
    the toy set (actual 5.0 and 2.0, predicted 4.0 and 4.5, threshold 3.5) the
    cell reports accuracy 1/2, precision 1/2, recall 1 and f1 2/3. *)
Theorem classification_metrics_toy :
  (∀ thr ys k r, ys !! k = Some r →
     (thr <= r → binarize thr ys !! k = Some 1%Z)
     ∧ (r < thr → binarize thr ys !! k = Some 0%Z))
  ∧ (∀ model testset thr,
       ∃ ms, classification_metrics model testset thr = Some ms
         ∧ ms = classification_of thr (snd <$> testset) (y_pred (test model testset))
         ∧ precision_val ms
           = Metrics.precision_score (binarize thr (snd <$> testset))
               (binarize thr (y_pred (test model testset)))
         ∧ recall_val ms
           = Metrics.recall_score (binarize thr (snd <$> testset))
               (binarize thr (y_pred (test model testset))))
  ∧ binarize threshold (snd <$> Samples.toy_testset) = [1; 0]%Z
  ∧ binarize threshold (y_pred (test Samples.toy_model Samples.toy_testset)) = [1; 1]%Z
  ∧ ∃ ms, classification_metrics Samples.toy_model Samples.toy_testset threshold = Some ms
      ∧ (∃ a, accuracy_val ms = Some a ∧ a == 1 # 2)
      ∧ precision_val ms == 1 # 2
      ∧ recall_val ms == 1
      ∧ f1_val ms == 2 # 3.
Proof.
  split; [|split; [|split; [|split]]].
  - intros thr ys k r E. rewrite (binarize_lookup thr ys k r E). split.
    + intros Hle. apply Qle_bool_iff in Hle. by rewrite Hle.
    + intros Hlt. destruct (Qle_bool thr r) eqn:Hb; [|done].
      apply Qle_bool_iff in Hb. exfalso. by apply (Qlt_not_le _ _ Hlt).
  - intros model testset thr. rewrite classification_metrics_eq, y_pred_test.
    eexists. split; [reflexivity|]. split; [reflexivity|]. split; reflexivity.
  - reflexivity.
  - reflexivity.
  - rewrite classification_metrics_eq. eexists. split; [reflexivity|].
    split; [eexists; split; [reflexivity|]|]; repeat split; vm_compute; reflexivity.
Qed.

(** C6. The classification metrics are returned for every model, test set and
    threshold, and the degenerate cases follow one fixed convention: when no
    prediction reaches the threshold (no predicted positives) precision is 0,
    when no actual rating reaches it (no actual positives) recall is 0, and f1
    is 0 in both cases. *)
Theorem classification_metrics_zero_convention
    (model : Algo) (testset : list (Z * Z * Q)) (thr : Q) :
  ∃ ms, classification_metrics model testset thr = Some ms
    ∧ (Forall (λ t, model t.1.1 t.1.2 < thr) testset →
         precision_val ms = 0 ∧ f1_val ms == 0)
    ∧ (Forall (λ t, t.2 < thr) testset →
         recall_val ms = 0 ∧ f1_val ms == 0).
Proof.
  rewrite classification_metrics_eq. eexists. split; [reflexivity|].
  unfold classification_of. simpl. split.
  - intros Hall.
    assert (E : Metrics.precision_score (binarize thr (snd <$> testset))
                  (binarize thr ((λ t, model t.1.1 t.1.2) <$> testset)) = 0).
    { unfold Metrics.precision_score, Metrics.pred_sum.
      rewrite binarize_below; [apply prf_divide_zero|].
      by apply Forall_fmap. }
    split; [exact E | by apply f1_zero_l].
  - intros Hall.
    assert (E : Metrics.recall_score (binarize thr (snd <$> testset))
                  (binarize thr ((λ t, model t.1.1 t.1.2) <$> testset)) = 0).
    { unfold Metrics.recall_score, Metrics.true_sum.
      rewrite binarize_below; [apply prf_divide_zero|].
      by apply Forall_fmap. }
    split; [exact E | by apply f1_zero_r].
Qed.

Lemma classification_metrics_zero_convention_witness :
  ∃ ms, classification_metrics Samples.toy_model Samples.toy_testset 5 = Some ms
    ∧ precision_val ms = 0 ∧ f1_val ms == 0.
Proof.
  destruct (classification_metrics_zero_convention Samples.toy_model Samples.toy_testset 5)
    as (ms & E & Hp & _).
  exists ms. split; [exact E|]. apply Hp.
  apply Forall_cons; split; [reflexivity|].
  apply Forall_cons; split; [reflexivity|]. apply Forall_nil_2.
Defined.

(** ** The hybrid score *)

Lemma foldl_insert_lookup_inv {V : Type} (kvs : list (Z * V)) (m : gmap Z V) (k : Z) (v : V) :
  foldl (λ m kv, <[kv.1 := kv.2]> m) m kvs !! k = Some v →
  (k, v) ∈ kvs ∨ m !! k = Some v.
Proof.
  revert m. induction kvs as [|[k' v'] kvs IH]; intros m; simpl; [by right|].
  intros Hv. destruct (IH _ Hv) as [Hin|Hm]; [left; by right|].
  destruct (decide (k' = k)) as [->|Hne].
  - rewrite lookup_insert_eq in Hm. injection Hm as ->. left. left.
  - rewrite lookup_insert_ne in Hm by done. by right.
Qed.

Lemma vote_avg_from_frame (df : list Row) (movie_id : Z) (v : option Q) :
  vote_avg df !! movie_id = Some v →
  ∃ row, row ∈ df ∧ movieId row = movie_id ∧ vote_average row = v.
Proof.
  unfold vote_avg, to_dict. intros Hv.
  apply foldl_insert_lookup_inv in Hv as [Hin|He]; [|by rewrite lookup_empty in He].
  apply list_elem_of_fmap in Hin as (row & E & Hrow). injection E as -> ->.
  exists row. split; [|done]. by apply drop_duplicates_subseteq in Hrow.
Qed.

Lemma iloc_subseteq (df : list Row) (movie_indices : list nat) (rows : list Row) :
  iloc df movie_indices = Some rows → rows ⊆ df.
Proof.
  unfold iloc. intros E%mapM_Some_1.
  induction E as [|i r idxs rs Hi _ IH]; intros x Hx; [by apply elem_of_nil in Hx|].
  apply elem_of_cons in Hx as [->|Hx]; [|by apply IH].
  by eapply list_elem_of_lookup_2.
Qed.

Lemma iloc_in_range (df : list Row) (movie_indices : list nat) :
  Forall (λ i, (i < length df)%nat) movie_indices → is_Some (iloc df movie_indices).
Proof.
  unfold iloc. induction 1 as [|i idxs Hi _ [rows IH]]; [by eexists|].
  destruct (lookup_lt_is_Some_2 df i Hi) as [r Hr].
  exists (r :: rows). apply mapM_Some_2. constructor; [done|].
  by apply mapM_Some_1.
Qed.

Lemma hybrid_rows_elem_of (df : list Row) (model : Algo) (testset : list (Z * Z * Q))
    (h : HybridRow) :
  h ∈ hybrid_rows df (test model testset) →
  h_svd_pred h = model (h_userId h) (h_movieId h)
  ∧ hybrid_pred h = (h_svd_pred h + h_vote_average h) / 2
  ∧ ∃ row, row ∈ df ∧ movieId row = h_movieId h ∧ vote_average row = Some (h_vote_average h).
Proof.
  unfold hybrid_rows, pred_df, test. rewrite <- list_fmap_compose.
  intros Hh. apply list_elem_of_omap in Hh as (p & Hp & Hw).
  apply list_elem_of_fmap in Hp as (t & -> & _).
  unfold with_hybrid_pred in Hw. simpl in Hw.
  destruct (vote_avg df !! t.1.2) as [[v|]|] eqn:Hv; simpl in Hw; try discriminate.
  injection Hw as <-. simpl. repeat split.
  by apply vote_avg_from_frame.
Qed.

(** C9. Every row [recommend_hybrid] returns carries the model's prediction for
    that movie as [svd_score] and, as [hybrid_score], the plain mean
    [(vote_average + svd_score) / 2] of it and the [vote_average] cell of a row
    of the data frame, neither operand being rescaled (an empty cell leaves the
    score empty).  The evaluation cell forms [hybrid_pred] the same way. *)
Theorem hybrid_score_is_plain_mean (df : list Row) (svd_model : Algo) (kneighbors : nat → list nat) :
  (∀ movie_title user_id n rows,
     recommend_hybrid df svd_model kneighbors movie_title user_id n
       = Some (Recommendations rows) →
     Forall (λ r, svd_score r = svd_model user_id (rec_movieId r)
                ∧ hybrid_score r = (λ v, (v + svd_score r) / 2) <$> rec_vote_average r
                ∧ ∃ row, row ∈ df ∧ movieId row = rec_movieId r
                         ∧ vote_average row = rec_vote_average r) rows)
  ∧ (∀ testset,
       Forall (λ h, h_svd_pred h = svd_model (h_userId h) (h_movieId h)
                  ∧ hybrid_pred h = (h_svd_pred h + h_vote_average h) / 2
                  ∧ ∃ row, row ∈ df ∧ movieId row = h_movieId h
                           ∧ vote_average row = Some (h_vote_average h))
         (hybrid_rows df (test svd_model testset))).
Proof.
  split.
  - intros movie_title user_id n rows. unfold recommend_hybrid.
    destruct (title_to_index df movie_title) as [|idx ?]; [discriminate|].
    destruct (iloc df (drop 1 (kneighbors idx))) as [recs|] eqn:Hrecs; [|discriminate].
    simpl. intros [= <-]. apply Forall_forall. intros r Hr.
    apply slice_to_subseteq in Hr. rewrite sorted_by_perm in Hr.
    apply list_elem_of_fmap in Hr as (row & -> & Hrow).
    apply drop_duplicates_subseteq in Hrow.
    apply (iloc_subseteq _ _ _ Hrecs) in Hrow.
    simpl. repeat split. by exists row.
  - intros testset. apply Forall_forall. intros h. apply hybrid_rows_elem_of.
Qed.

Lemma hybrid_score_is_plain_mean_witness :
  ∃ rows,
    recommend_hybrid Samples.df Samples.algo Samples.kneighbors "Alpha" 1 3
      = Some (Recommendations rows)
    ∧ Forall (λ r, svd_score r = Samples.algo 1%Z (rec_movieId r)
                 ∧ hybrid_score r = (λ v, (v + svd_score r) / 2) <$> rec_vote_average r
                 ∧ ∃ row, row ∈ Samples.df ∧ movieId row = rec_movieId r
                          ∧ vote_average row = rec_vote_average r) rows.
Proof.
  eexists. split; [vm_compute; reflexivity|].
  apply (proj1 (hybrid_score_is_plain_mean Samples.df Samples.algo Samples.kneighbors)
           "Alpha"%string 1%Z 3%Z).
  vm_compute. reflexivity.
Defined.

(** [recommend_hybrid] returns (a frame or the not-found message) whenever the
    neighbour positions lie inside the data frame. *)
Lemma recommend_hybrid_returns (df : list Row) (svd_model : Algo) (kneighbors : nat → list nat)
    (movie_title : string) (user_id n : Z) :
  (∀ i, Forall (λ j, (j < length df)%nat) (kneighbors i)) →
  is_Some (recommend_hybrid df svd_model kneighbors movie_title user_id n).
Proof.
  intros Hrange. unfold recommend_hybrid.
  destruct (title_to_index df movie_title) as [|idx ?]; [by eexists|].
  destruct (iloc_in_range df (drop 1 (kneighbors idx))) as [recs ->].
  { apply Forall_drop, Hrange. }
  simpl. by eexists.
Qed.

(** On the sample frame the scores 6, 17/4 and 4 are the means of vote averages
    8, 13/2, 7 (a ten-point column) and predictions 4, 2, 1; the movie whose
    [vote_average] cell is empty sorts last and falls outside the first three. *)
Example recommend_hybrid_sample :
  (λ r, (rec_title r, hybrid_score r)) <$>
    match recommend_hybrid Samples.df Samples.algo Samples.kneighbors "Alpha" 1 3 with
    | Some (Recommendations rows) => rows
    | _ => []
    end
  = [("Delta"%string, Some (120 # 20)); ("Beta"%string, Some (170 # 40));
     ("Alpha"%string, Some (80 # 20))].
Proof. vm_compute. reflexivity. Qed.

Lemma get_top_n_recommendations_spec_witness :
  (Z.of_nat (length (get_top_n_recommendations 1 Samples.df Samples.algo 2)) <= 2)%Z
  ∧ get_top_n_recommendations 1 Samples.df Samples.algo 2
      = (λ p, (default "Unknown"%string (movie_map Samples.df !! iid p), round2 (est p)))
          <$> top_preds 1 Samples.df Samples.algo 2
  ∧ StronglySorted (λ a b, est b <= est a) (top_preds 1 Samples.df Samples.algo 2)
  ∧ StronglySorted (λ a b, snd b <= snd a) (get_top_n_recommendations 1 Samples.df Samples.algo 2)
  ∧ Forall (λ p, est p = Samples.algo 1%Z (iid p) ∧ ¬ rated Samples.df 1 (iid p))
      (top_preds 1 Samples.df Samples.algo 2).
Proof.
  apply (get_top_n_recommendations_spec 1 Samples.df Samples.algo 2). lia.
Defined.

(** User 1 has rated movies 10 and 20; of the other two, 40 is predicted 4.0
    and 30 is predicted 3.0. *)
Example get_top_n_recommendations_sample :
  get_top_n_recommendations 1 Samples.df Samples.algo 2
  = [("Delta"%string, 400 # 100); ("Gamma"%string, 300 # 100)].
Proof. vm_compute. reflexivity. Qed.

(** A negative bound cuts from the end, as Python slices do. *)
Example slice_to_negative : slice_to (-1) [1; 2; 3]%Z = [1; 2]%Z.
Proof. reflexivity. Qed.

(** Ties in [round(x, 2)] go to the even neighbour. *)
Example round2_ties : round2 (1 # 8) == 12 # 100 ∧ round2 (3 # 8) == 38 # 100.
Proof. split; vm_compute; reflexivity. Qed.

(** * Further properties of the notebooks' code *)

(** ** How many recommendations, and which *)

Lemma top_preds_unfold (user_id : Z) (df : list Row) (model : Algo) (n : Z) :
  top_preds user_id df model n
  = slice_to n (sorted_by by_estimate
      ((λ movie_id, predict model user_id movie_id None) <$> to_predict user_id df)).
Proof. reflexivity. Qed.

Lemma elem_of_to_predict (user_id : Z) (df : list Row) (movie_id : Z) :
  movie_id ∈ to_predict user_id df
  ↔ movie_id ∈ movieId <$> df ∧ ¬ rated df user_id movie_id.
Proof.
  unfold to_predict. rewrite list_elem_of_filter, elem_of_unique, rated_movies_elem_of.
  tauto.
Qed.

Lemma to_predict_NoDup (user_id : Z) (df : list Row) : NoDup (to_predict user_id df).
Proof. unfold to_predict. apply NoDup_filter, unique_NoDup. Qed.

Lemma sorted_by_length {A : Type} (before : A → A → bool) (l : list A) :
  length (sorted_by before l) = length l.
Proof. by rewrite sorted_by_perm. Qed.

Lemma slice_to_length_eq {A : Type} (n : Z) (l : list A) :
  length (slice_to n l)
  = if (0 <=? n)%Z then Z.to_nat n `min` length l else (length l - Z.to_nat (- n))%nat.
Proof.
  unfold slice_to. destruct (0 <=? n)%Z; rewrite length_take; lia.
Qed.

Lemma get_top_n_recommendations_length (user_id : Z) (df : list Row) (model : Algo) (n : Z) :
  length (get_top_n_recommendations user_id df model n)
  = (if (0 <=? n)%Z then Z.to_nat n `min` length (to_predict user_id df)
     else (length (to_predict user_id df) - Z.to_nat (- n))%nat).
Proof.
  unfold get_top_n_recommendations. rewrite length_fmap, top_preds_unfold.
  by rewrite slice_to_length_eq, sorted_by_length, length_fmap.
Qed.

(** X1. The number of recommendations: for [n >= 0] it is the smaller of [n]
    and the number of candidates, for a negative [n] the number of candidates
    less [-n] (never below zero); the candidates are exactly the movies of the
    frame the user has no row for, each counted once. *)
Theorem get_top_n_recommendations_count (user_id : Z) (df : list Row) (model : Algo) (n : Z) :
  length (get_top_n_recommendations user_id df model n)
  = (if (0 <=? n)%Z then Z.to_nat n `min` length (to_predict user_id df)
     else (length (to_predict user_id df) - Z.to_nat (- n))%nat)
  ∧ NoDup (to_predict user_id df)
  ∧ ∀ movie_id, movie_id ∈ to_predict user_id df
      ↔ movie_id ∈ movieId <$> df ∧ ¬ rated df user_id movie_id.
Proof.
  split; [|split; [apply to_predict_NoDup | intros; apply elem_of_to_predict]].
  apply get_top_n_recommendations_length.
Qed.

(** X2. The "No recommendations found" case: asked for at least one, the
    function returns the empty list exactly when the user has a rating row for
    every movie of the frame; a user without any row gets a recommendation as
    soon as the frame has one. *)
Theorem get_top_n_recommendations_empty (user_id : Z) (df : list Row) (model : Algo) (n : Z) :
  (0 < n)%Z →
  (get_top_n_recommendations user_id df model n = []
   ↔ ∀ r, r ∈ df → rated df user_id (movieId r))
  ∧ ((∀ r, r ∈ df → userId r ≠ user_id) → df ≠ [] →
     get_top_n_recommendations user_id df model n ≠ []).
Proof.
  intros Hn.
  assert (Hlen : get_top_n_recommendations user_id df model n = []
                 ↔ to_predict user_id df = []).
  { rewrite <- !length_zero_iff_nil.
    rewrite (get_top_n_recommendations_length user_id df model n).
    destruct (Z.leb_spec 0 n); lia. }
  assert (Hall : to_predict user_id df = []
                 ↔ ∀ r, r ∈ df → rated df user_id (movieId r)).
  { split.
    - intros E r Hr.
      destruct (decide (movieId r ∈ movieId <$> filter (λ r, userId r = user_id) df))
        as [Hin|Hnin]; [by apply rated_movies_elem_of|].
      exfalso. assert (Hm : movieId r ∈ to_predict user_id df).
      { apply elem_of_to_predict. split; [by apply list_elem_of_fmap_2|].
        by rewrite <- rated_movies_elem_of. }
      rewrite E in Hm. by apply elem_of_nil in Hm.
    - intros Hr. destruct (to_predict user_id df) as [|m l] eqn:E; [done|].
      assert (Hm : m ∈ to_predict user_id df) by (rewrite E; left).
      apply elem_of_to_predict in Hm as [Hm Hnr].
      apply list_elem_of_fmap in Hm as (r & -> & Hin). by destruct (Hnr (Hr r Hin)). }
  split; [by rewrite Hlen, Hall|].
  intros Hnone Hdf. rewrite Hlen, Hall. intros Hr.
  destruct df as [|r df]; [done|].
  destruct (Hr r) as (r' & Hin & Hu & _); [left|]. by apply (Hnone r' Hin).
Qed.

Lemma get_top_n_recommendations_empty_witness :
  (get_top_n_recommendations 2 Samples.df Samples.algo 1 = []
   ↔ ∀ r, r ∈ Samples.df → rated Samples.df 2 (movieId r))
  ∧ ((∀ r, r ∈ Samples.df → userId r ≠ 2%Z) → Samples.df ≠ [] →
     get_top_n_recommendations 2 Samples.df Samples.algo 1 ≠ []).
Proof.
  apply (get_top_n_recommendations_empty 2 Samples.df Samples.algo 1). lia.
Defined.

(** X3. No movie is recommended twice, and the recommended ones are the best:
    a movie of the frame that the user has not rated and that is not among the
    kept predictions is predicted no higher than any kept one. *)
Theorem get_top_n_recommendations_best (user_id : Z) (df : list Row) (model : Algo) (n : Z) :
  (0 <= n)%Z →
  NoDup (iid <$> top_preds user_id df model n)
  ∧ ∀ p movie_id,
      p ∈ top_preds user_id df model n →
      movie_id ∈ movieId <$> df →
      ¬ rated df user_id movie_id →
      movie_id ∉ iid <$> top_preds user_id df model n →
      model user_id movie_id <= est p.
Proof.
  intros Hn. split; [apply top_preds_NoDup|].
  intros p movie_id. by apply top_preds_best.
Qed.

Lemma get_top_n_recommendations_best_witness :
  NoDup (iid <$> top_preds 1 Samples.df Samples.algo 1)
  ∧ ∀ p movie_id,
      p ∈ top_preds 1 Samples.df Samples.algo 1 →
      movie_id ∈ movieId <$> Samples.df →
      ¬ rated Samples.df 1 movie_id →
      movie_id ∉ iid <$> top_preds 1 Samples.df Samples.algo 1 →
      Samples.algo 1%Z movie_id <= est p.
Proof.
  apply (get_top_n_recommendations_best 1 Samples.df Samples.algo 1). lia.
Defined.

(** ** Titles *)

Section dict_facts.
Context {K : Type} `{Countable K} {V : Type}.
Implicit Types (kvs : list (K * V)) (m : gmap K V).

Lemma foldl_insert_Some kvs m k :
  k ∈ kvs.*1 ∨ is_Some (m !! k) →
  ∃ v, foldl (λ m kv, <[kv.1 := kv.2]> m) m kvs !! k = Some v
       ∧ ((k, v) ∈ kvs ∨ m !! k = Some v).
Proof.
  revert m. induction kvs as [|[k' v'] kvs IH]; intros m Hk; simpl.
  - destruct Hk as [Hk|[v Hv]]; [by apply elem_of_nil in Hk|]. eauto.
  - destruct (IH (<[k' := v']> m)) as (v & Hv & Hfrom).
    { destruct (decide (k' = k)) as [->|Hne].
      - right. rewrite lookup_insert_eq. eauto.
      - destruct Hk as [Hk|Hk].
        + simpl in Hk. apply elem_of_cons in Hk as [E|Hk]; [congruence|by left].
        + right. by rewrite lookup_insert_ne. }
    exists v. split; [done|].
    destruct Hfrom as [Hin|Hm]; [left; by right|].
    destruct (decide (k' = k)) as [->|Hne].
    + rewrite lookup_insert_eq in Hm. injection Hm as <-. left. left.
    + rewrite lookup_insert_ne in Hm by done. by right.
Qed.

Lemma foldl_insert_inv kvs m k v :
  foldl (λ m kv, <[kv.1 := kv.2]> m) m kvs !! k = Some v →
  (k, v) ∈ kvs ∨ m !! k = Some v.
Proof.
  revert m. induction kvs as [|[k' v'] kvs IH]; intros m; simpl; [by right|].
  intros Hv. destruct (IH _ Hv) as [Hin|Hm]; [left; by right|].
  destruct (decide (k' = k)) as [->|Hne].
  - rewrite lookup_insert_eq in Hm. injection Hm as ->. left. left.
  - rewrite lookup_insert_ne in Hm by done. by right.
Qed.

(** A dictionary built from pairs holds a key exactly when some pair has it,
    and then with the value of one of those pairs. *)
Lemma foldl_insert_empty kvs k :
  (is_Some (foldl (λ m kv, <[kv.1 := kv.2]> m) (∅ : gmap K V) kvs !! k) ↔ k ∈ kvs.*1)
  ∧ ∀ v, foldl (λ m kv, <[kv.1 := kv.2]> m) (∅ : gmap K V) kvs !! k = Some v → (k, v) ∈ kvs.
Proof.
  assert (Hinv : ∀ v, foldl (λ m kv, <[kv.1 := kv.2]> m) (∅ : gmap K V) kvs !! k = Some v
                      → (k, v) ∈ kvs).
  { intros v Hv. apply foldl_insert_inv in Hv as [?|He]; [done|].
    by rewrite lookup_empty in He. }
  split; [|done]. split.
  - intros [v Hv]. apply list_elem_of_fmap. exists (k, v). split; [done|by apply Hinv].
  - intros Hk. destruct (foldl_insert_Some kvs ∅ k) as (v & Hv & _); [by left|]. eauto.
Qed.
End dict_facts.

Lemma elem_of_drop_duplicates_self {A : Type} `{EqDecision A} (l : list A) (x : A) :
  x ∈ drop_duplicates (λ kv, kv) l ↔ x ∈ l.
Proof. apply elem_of_unique. Qed.

Lemma movie_map_lookup (df : list Row) (movie_id : Z) :
  (is_Some (movie_map df !! movie_id) ↔ movie_id ∈ movieId <$> df)
  ∧ ∀ t, movie_map df !! movie_id = Some t →
      ∃ row, row ∈ df ∧ movieId row = movie_id ∧ title row = t.
Proof.
  unfold movie_map, to_dict.
  destruct (foldl_insert_empty
    (drop_duplicates (λ kv, kv) ((λ r, (movieId r, title r)) <$> df)) movie_id) as [Hdom Hval].
  split.
  - rewrite Hdom. rewrite !list_elem_of_fmap. split.
    + intros ([m t] & -> & Hin). rewrite elem_of_drop_duplicates_self in Hin.
      apply list_elem_of_fmap in Hin as (r & E & Hr). injection E as -> ->. eauto.
    + intros (r & -> & Hr). exists (movieId r, title r). split; [done|].
      rewrite elem_of_drop_duplicates_self. apply list_elem_of_fmap. eauto.
  - intros t Ht. apply Hval in Ht. rewrite elem_of_drop_duplicates_self in Ht.
    apply list_elem_of_fmap in Ht as (r & E & Hr). injection E as -> ->. eauto.
Qed.

Lemma title_map_lookup (df : list Row) (t : string) :
  (is_Some (title_map df !! t) ↔ t ∈ title <$> df)
  ∧ ∀ movie_id, title_map df !! t = Some movie_id →
      ∃ row, row ∈ df ∧ title row = t ∧ movieId row = movie_id.
Proof.
  unfold title_map.
  destruct (foldl_insert_empty
    (drop_duplicates (λ kv, kv) ((λ r, (title r, movieId r)) <$> df)) t) as [Hdom Hval].
  split.
  - rewrite Hdom. rewrite !list_elem_of_fmap. split.
    + intros ([t' m] & -> & Hin). rewrite elem_of_drop_duplicates_self in Hin.
      apply list_elem_of_fmap in Hin as (r & E & Hr). injection E as -> ->. eauto.
    + intros (r & -> & Hr). exists (title r, movieId r). split; [done|].
      rewrite elem_of_drop_duplicates_self. apply list_elem_of_fmap. eauto.
  - intros m Hm. apply Hval in Hm. rewrite elem_of_drop_duplicates_self in Hm.
    apply list_elem_of_fmap in Hm as (r & E & Hr). injection E as -> ->. eauto.
Qed.

(** X4. The default title 'Unknown' is never needed: every pair returned by
    [get_top_n_recommendations] carries the title of a row of the frame whose
    movie is the predicted one, next to the rounded estimate. *)
Theorem get_top_n_recommendations_titles (user_id : Z) (df : list Row) (model : Algo) (n : Z) :
  ∀ k p, top_preds user_id df model n !! k = Some p →
    ∃ row, row ∈ df ∧ movieId row = iid p
      ∧ movie_map df !! iid p = Some (title row)
      ∧ get_top_n_recommendations user_id df model n !! k
        = Some (title row, round2 (est p)).
Proof.
  intros k p Hk.
  assert (Hp : p ∈ top_preds user_id df model n) by by eapply list_elem_of_lookup_2.
  rewrite top_preds_unfold in Hp. apply slice_to_subseteq in Hp.
  rewrite sorted_by_perm in Hp. apply list_elem_of_fmap in Hp as (m & -> & Hm).
  apply elem_of_to_predict in Hm as [Hm _]. simpl.
  destruct (movie_map_lookup df m) as [Hdom Hval].
  destruct (proj2 Hdom Hm) as [t Ht]. destruct (Hval t Ht) as (row & Hrow & Hid & <-).
  exists row. repeat split; [done..|].
  unfold get_top_n_recommendations. rewrite list_lookup_fmap, Hk. simpl. by rewrite Ht.
Qed.

Lemma get_top_n_recommendations_titles_witness :
  ∃ row, row ∈ Samples.df ∧ movieId row = 40%Z
    ∧ movie_map Samples.df !! 40%Z = Some (title row)
    ∧ get_top_n_recommendations 1 Samples.df Samples.algo 2 !! 0%nat
      = Some (title row, round2 (Samples.algo 1%Z 40%Z)).
Proof.
  apply (get_top_n_recommendations_titles 1 Samples.df Samples.algo 2 0%nat
           {| uid := 1; iid := 40; r_ui := None; est := Samples.algo 1%Z 40%Z |}).
  vm_compute. reflexivity.
Defined.

(** X5. [title_map] of app1.py holds exactly the titles of the frame, so every
    title offered for "Predict Rating" is found, and the movie it gives is the
    [movieId] of a row with that title. *)
Theorem title_map_covers_titles (df : list Row) (t : string) :
  (is_Some (title_map df !! t) ↔ t ∈ title <$> df)
  ∧ ∀ movie_id, title_map df !! t = Some movie_id →
      ∃ row, row ∈ df ∧ title row = t ∧ movieId row = movie_id.
Proof. apply title_map_lookup. Qed.

(** X6. When every movie of the frame has one title, the two dictionaries of
    app1.py agree: the movie looked up for a title maps back to that title. *)
Theorem title_map_movie_map_round_trip (df : list Row) (t : string) (movie_id : Z) :
  (∀ r r', r ∈ df → r' ∈ df → movieId r = movieId r' → title r = title r') →
  title_map df !! t = Some movie_id →
  movie_map df !! movie_id = Some t.
Proof.
  intros Hfd Ht.
  destruct (proj2 (title_map_lookup df t) movie_id Ht) as (r & Hr & <- & <-).
  destruct (movie_map_lookup df (movieId r)) as [Hdom Hval].
  destruct (proj2 Hdom) as [t' Ht']; [by apply list_elem_of_fmap_2|].
  destruct (Hval t' Ht') as (r' & Hr' & Hid & <-).
  rewrite Ht'. f_equal. by apply Hfd.
Qed.

Lemma title_map_movie_map_round_trip_witness :
  movie_map Samples.df !! 40%Z = Some "Delta"%string.
Proof.
  apply (title_map_movie_map_round_trip Samples.df "Delta" 40).
  - intros r r' Hr Hr' E.
    repeat (apply elem_of_cons in Hr as [->|Hr]); try (by apply elem_of_nil in Hr);
      repeat (apply elem_of_cons in Hr' as [->|Hr']); try (by apply elem_of_nil in Hr');
      simpl in E; try reflexivity; discriminate E.
  - vm_compute. reflexivity.
Defined.

(** ** recommend_hybrid *)

Lemma elem_of_title_to_index (df : list Row) (t : string) (idx : nat) :
  idx ∈ title_to_index df t ↔ ∃ r, df !! idx = Some r ∧ title r = t.
Proof.
  unfold title_to_index. rewrite list_elem_of_fmap. split.
  - intros ([i r] & -> & Hin). apply list_elem_of_filter in Hin as [Ht Hin].
    apply elem_of_lookup_imap in Hin as (j & r' & E & Hj). injection E as -> ->. eauto.
  - intros (r & Hr & Ht). exists (idx, r). split; [done|].
    apply list_elem_of_filter. split; [done|].
    apply elem_of_lookup_imap. eauto.
Qed.

Lemma title_to_index_nil (df : list Row) (t : string) :
  title_to_index df t = [] ↔ t ∉ title <$> df.
Proof.
  split.
  - intros E Hin. apply list_elem_of_fmap in Hin as (r & -> & Hr).
    apply list_elem_of_lookup in Hr as [idx Hidx].
    assert (H : idx ∈ title_to_index df (title r)) by (apply elem_of_title_to_index; eauto).
    rewrite E in H. by apply elem_of_nil in H.
  - intros Hnin. destruct (title_to_index df t) as [|idx l] eqn:E; [done|].
    exfalso. assert (H : idx ∈ title_to_index df t) by (rewrite E; left).
    apply elem_of_title_to_index in H as (r & Hr & <-).
    apply Hnin. apply list_elem_of_fmap. exists r. split; [done|].
    by eapply list_elem_of_lookup_2.
Qed.

(** What a frame returned by [recommend_hybrid] is made of. *)
Lemma recommend_hybrid_inv (df : list Row) (svd_model : Algo) (kneighbors : nat → list nat)
    (movie_title : string) (user_id n : Z) (rows : list Recommendation) :
  recommend_hybrid df svd_model kneighbors movie_title user_id n = Some (Recommendations rows) →
  ∃ idx r recs,
    df !! idx = Some r ∧ title r = movie_title
    ∧ Forall2 (λ pos r', df !! pos = Some r') (drop 1 (kneighbors idx)) recs
    ∧ rows = slice_to n (sorted_by hybrid_before
               (score svd_model user_id <$> drop_duplicates title recs)).
Proof.
  unfold recommend_hybrid.
  destruct (title_to_index df movie_title) as [|idx rest] eqn:E; [discriminate|].
  destruct (iloc df (drop 1 (kneighbors idx))) as [recs|] eqn:Hrecs; [|discriminate].
  simpl. intros [= <-].
  assert (H : idx ∈ title_to_index df movie_title) by (rewrite E; left).
  apply elem_of_title_to_index in H as (r & Hr & Ht).
  exists idx, r, recs. repeat split; [done..|]. by apply mapM_Some_1.
Qed.

(** X7. [recommend_hybrid] answers with the not-found message exactly when no
    row of the frame bears the title, and the message quotes the title. *)
Theorem recommend_hybrid_not_found (df : list Row) (svd_model : Algo)
    (kneighbors : nat → list nat) (movie_title : string) (user_id n : Z) (message : string) :
  recommend_hybrid df svd_model kneighbors movie_title user_id n = Some (NotFound message)
  ↔ (movie_title ∉ title <$> df)
    ∧ message = ("Movie '" +:+ movie_title +:+ "' not found in dataset.")%string.
Proof.
  rewrite <- title_to_index_nil. unfold recommend_hybrid.
  destruct (title_to_index df movie_title) as [|idx rest].
  - split; [intros [= <-]; done | intros [_ ->]; done].
  - destruct (iloc df (drop 1 (kneighbors idx))); simpl;
      (split; [discriminate | intros [? _]; discriminate]).
Qed.

(** X8. A frame returned by [recommend_hybrid] has no title twice, at most [n]
    rows for [n >= 0], and fewer rows than the neighbour search returned
    positions; each row is a row of the data frame at one of the positions
    after the first, scored for the given user. *)
Theorem recommend_hybrid_rows (df : list Row) (svd_model : Algo) (kneighbors : nat → list nat)
    (movie_title : string) (user_id n : Z) (rows : list Recommendation) :
  recommend_hybrid df svd_model kneighbors movie_title user_id n = Some (Recommendations rows) →
  NoDup (rec_title <$> rows)
  ∧ ((0 <= n)%Z → (Z.of_nat (length rows) <= n)%Z)
  ∧ ∃ idx r, df !! idx = Some r ∧ title r = movie_title
      ∧ (length rows <= length (kneighbors idx) - 1)%nat
      ∧ ∀ row, row ∈ rows →
          ∃ pos r', pos ∈ drop 1 (kneighbors idx) ∧ df !! pos = Some r'
                    ∧ row = score svd_model user_id r'.
Proof.
  intros Hres.
  destruct (recommend_hybrid_inv _ _ _ _ _ _ _ Hres) as (idx & r & recs & Hr & Ht & Hrecs & ->).
  set (scored := score svd_model user_id <$> drop_duplicates title recs).
  assert (Hnd : NoDup (rec_title <$> sorted_by hybrid_before scored)).
  { rewrite sorted_by_perm. unfold scored. rewrite <- list_fmap_compose.
    apply (drop_duplicates_from_NoDup title [] recs). }
  split; [|split].
  - unfold slice_to. destruct (0 <=? n)%Z; rewrite fmap_take;
      (eapply sublist_NoDup; [exact Hnd | apply sublist_take]).
  - apply slice_to_length.
  - exists idx, r. split; [done|]. split; [done|]. split.
    + assert (Hle : (length (slice_to n (sorted_by hybrid_before scored)) <= length recs)%nat).
      { etransitivity.
        - apply (submseteq_length _ (sorted_by hybrid_before scored)).
          unfold slice_to. destruct (0 <=? n)%Z; apply submseteq_take.
        - rewrite sorted_by_length. unfold scored. rewrite length_fmap.
          apply submseteq_length, sublist_submseteq.
          clear. unfold drop_duplicates. generalize (@nil string).
          induction recs as [|x l IH]; intros seen; simpl; [done|].
          destruct (decide (title x ∈ seen)); [by apply sublist_cons | by apply sublist_skip]. }
      rewrite <- (Forall2_length _ _ _ Hrecs), length_drop in Hle. exact Hle.
    + intros row Hrow. apply slice_to_subseteq in Hrow. rewrite sorted_by_perm in Hrow.
      apply list_elem_of_fmap in Hrow as (r' & -> & Hr').
      apply drop_duplicates_subseteq in Hr'.
      apply list_elem_of_lookup in Hr' as [j Hj].
      destruct (Forall2_lookup_r _ _ _ _ _ Hrecs Hj) as (pos & Hpos & Hdf).
      exists pos, r'. split; [by eapply list_elem_of_lookup_2|done].
Qed.

Lemma recommend_hybrid_rows_witness :
  ∃ rows,
    recommend_hybrid Samples.df Samples.algo Samples.kneighbors "Alpha" 1 3
      = Some (Recommendations rows)
    ∧ NoDup (rec_title <$> rows)
    ∧ ((0 <= 3)%Z → (Z.of_nat (length rows) <= 3)%Z)
    ∧ ∃ idx r, Samples.df !! idx = Some r ∧ title r = "Alpha"%string
        ∧ (length rows <= length (Samples.kneighbors idx) - 1)%nat
        ∧ ∀ row, row ∈ rows →
            ∃ pos r', pos ∈ drop 1 (Samples.kneighbors idx) ∧ Samples.df !! pos = Some r'
                      ∧ row = score Samples.algo 1 r'.
Proof.
  eexists. split; [vm_compute; reflexivity|].
  apply (recommend_hybrid_rows Samples.df Samples.algo Samples.kneighbors "Alpha" 1 3).
  vm_compute. reflexivity.
Defined.

Lemma hybrid_before_asym (a b : Recommendation) :
  hybrid_before a b = true → hybrid_before b a = false.
Proof.
  unfold hybrid_before.
  destruct (hybrid_score a) as [x|], (hybrid_score b) as [y|]; try done.
  rewrite Qlt_bool_true, Qlt_bool_false. apply Qlt_le_weak.
Qed.

Lemma in_order_hybrid_before (a b : Recommendation) :
  in_order hybrid_before a b ↔ no_lower_score a b.
Proof.
  unfold in_order, hybrid_before, no_lower_score.
  destruct (hybrid_score a) as [x|], (hybrid_score b) as [y|]; try done.
  apply Qlt_bool_false.
Qed.

Lemma no_lower_score_trans (a b c : Recommendation) :
  no_lower_score a b → no_lower_score b c → no_lower_score a c.
Proof.
  unfold no_lower_score.
  destruct (hybrid_score a) as [x|], (hybrid_score b) as [y|], (hybrid_score c) as [z|];
    try done.
  intros Hyx Hzy. by apply Qle_trans with y.
Qed.

Lemma sorted_by_hybrid_before (l : list Recommendation) :
  StronglySorted no_lower_score (sorted_by hybrid_before l).
Proof.
  apply Sorted_StronglySorted.
  - intros a b c. apply no_lower_score_trans.
  - eapply Sorted_weaken; [|apply sorted_by_Sorted, hybrid_before_asym].
    intros a b. by rewrite in_order_hybrid_before.
Qed.

Lemma StronglySorted_lookup_lt {A : Type} (R : relation A) (l : list A) (i j : nat) (a b : A) :
  StronglySorted R l → (i < j)%nat → l !! i = Some a → l !! j = Some b → R a b.
Proof.
  intros Hs. revert i j. induction Hs as [|x l Hs IH Hall]; intros i j Hij Ha Hb.
  - by rewrite lookup_nil in Ha.
  - destruct j as [|j]; [lia|]. simpl in Hb. destruct i as [|i].
    + injection Ha as <-. eapply Forall_forall in Hall; [exact Hall|].
      by eapply list_elem_of_lookup_2.
    + simpl in Ha. apply (IH i j); [lia|done..].
Qed.

(** X9. The rows [recommend_hybrid] returns are in non-increasing order of
    [hybrid_score], and a row without a score (empty [vote_average]) comes
    after every row that has one. *)
Theorem recommend_hybrid_sorted (df : list Row) (svd_model : Algo) (kneighbors : nat → list nat)
    (movie_title : string) (user_id n : Z) (rows : list Recommendation) :
  recommend_hybrid df svd_model kneighbors movie_title user_id n = Some (Recommendations rows) →
  StronglySorted no_lower_score rows
  ∧ ∀ i j a b, (i < j)%nat → rows !! i = Some a → rows !! j = Some b →
      match hybrid_score a, hybrid_score b with
      | Some x, Some y => y <= x
      | None, Some _ => False
      | _, None => True
      end.
Proof.
  intros Hres.
  destruct (recommend_hybrid_inv _ _ _ _ _ _ _ Hres) as (idx & r & recs & _ & _ & _ & ->).
  assert (Hs : StronglySorted no_lower_score
                 (slice_to n (sorted_by hybrid_before
                    (score svd_model user_id <$> drop_duplicates title recs)))).
  { apply slice_to_StronglySorted, sorted_by_hybrid_before. }
  split; [exact Hs|].
  intros i j a b Hij Ha Hb.
  exact (StronglySorted_lookup_lt no_lower_score _ i j a b Hs Hij Ha Hb).
Qed.

Lemma recommend_hybrid_sorted_witness :
  ∃ rows,
    recommend_hybrid Samples.df Samples.algo Samples.kneighbors "Alpha" 1 10
      = Some (Recommendations rows)
    ∧ StronglySorted no_lower_score rows
    ∧ ∀ i j a b, (i < j)%nat → rows !! i = Some a → rows !! j = Some b →
        match hybrid_score a, hybrid_score b with
        | Some x, Some y => y <= x
        | None, Some _ => False
        | _, None => True
        end.
Proof.
  eexists. split; [vm_compute; reflexivity|].
  apply (recommend_hybrid_sorted Samples.df Samples.algo Samples.kneighbors "Alpha" 1 10).
  vm_compute. reflexivity.
Defined.

(** With room for all of them the sample gives four rows, the one without a
    [vote_average] last. *)
Example recommend_hybrid_sample_all :
  (λ r, (rec_title r, hybrid_score r)) <$>
    match recommend_hybrid Samples.df Samples.algo Samples.kneighbors "Alpha" 1 10 with
    | Some (Recommendations rows) => rows
    | _ => []
    end
  = [("Delta"%string, Some (120 # 20)); ("Beta"%string, Some (170 # 40));
     ("Alpha"%string, Some (80 # 20)); ("Gamma"%string, None)].
Proof. vm_compute. reflexivity. Qed.

Lemma drop_duplicates_length {A K : Type} `{EqDecision K} (key : A → K) (l : list A) :
  (length (drop_duplicates key l) <= length l)%nat.
Proof.
  unfold drop_duplicates. generalize (@nil K).
  induction l as [|x l IH]; intros seen; simpl; [done|].
  destruct (decide (key x ∈ seen)); [specialize (IH seen) | specialize (IH (key x :: seen))];
    simpl; lia.
Qed.

(** X10. [recommend_hybrid] filters nothing but repeated titles: when [n] is
    at least the number of neighbour positions, the title of every row found
    at a position after the first is among the returned titles, whether or
    not the user has rated that movie and whether or not it is the selected
    movie itself. *)
Theorem recommend_hybrid_keeps_every_title (df : list Row) (svd_model : Algo)
    (kneighbors : nat → list nat) (movie_title : string) (user_id n : Z)
    (idx : nat) (rows : list Recommendation) :
  head (title_to_index df movie_title) = Some idx →
  recommend_hybrid df svd_model kneighbors movie_title user_id n = Some (Recommendations rows) →
  (Z.of_nat (length (kneighbors idx)) <= n)%Z →
  ∀ pos r, pos ∈ drop 1 (kneighbors idx) → df !! pos = Some r →
    title r ∈ rec_title <$> rows.
Proof.
  unfold recommend_hybrid.
  destruct (title_to_index df movie_title) as [|idx' rest]; [discriminate|].
  simpl. intros [= ->].
  destruct (iloc df (drop 1 (kneighbors idx))) as [recs|] eqn:Hrecs; [|discriminate].
  simpl. intros [= <-] Hn pos r Hpos Hr.
  apply mapM_Some_1 in Hrecs.
  assert (Hin : r ∈ recs).
  { apply list_elem_of_lookup in Hpos as [j Hj].
    destruct (Forall2_lookup_l _ _ _ _ _ Hrecs Hj) as (r' & Hr' & Hdf).
    rewrite Hr in Hdf. injection Hdf as <-. by eapply list_elem_of_lookup_2. }
  destruct (drop_duplicates_keys title recs r Hin) as (y & Hy & Ey).
  set (scored := score svd_model user_id <$> drop_duplicates title recs).
  assert (Hall : slice_to n (sorted_by hybrid_before scored) = sorted_by hybrid_before scored).
  { unfold slice_to. destruct (Z.leb_spec 0 n) as [_|?]; [|lia].
    apply take_ge. rewrite sorted_by_length. unfold scored. rewrite length_fmap.
    pose proof (drop_duplicates_length title recs) as Hd.
    pose proof (Forall2_length _ _ _ Hrecs) as Hl. rewrite length_drop in Hl. lia. }
  rewrite Hall, sorted_by_perm. unfold scored. rewrite <- list_fmap_compose.
  apply list_elem_of_fmap. exists y. split; [by rewrite <- Ey|done].
Qed.

Lemma recommend_hybrid_keeps_every_title_witness :
  ∃ rows,
    recommend_hybrid Samples.df Samples.algo Samples.kneighbors "Alpha" 1 10
      = Some (Recommendations rows)
    ∧ ∀ pos r, pos ∈ drop 1 (Samples.kneighbors 0) → Samples.df !! pos = Some r →
        title r ∈ rec_title <$> rows.
Proof.
  eexists. split; [vm_compute; reflexivity|].
  apply (recommend_hybrid_keeps_every_title Samples.df Samples.algo Samples.kneighbors
           "Alpha" 1 10 0).
  - reflexivity.
  - vm_compute. reflexivity.
  - vm_compute. discriminate.
Defined.

(** ** The scores shown *)






(** ** The labels of the hybrid evaluation *)

Lemma tp_sum_all_ones (y_true : list Z) :
  Metrics.tp_sum y_true (replicate (length y_true) 1%Z) = Metrics.true_sum y_true.
Proof.
  unfold Metrics.tp_sum, Metrics.true_sum.
  induction y_true as [|t l IH]; [done|].
  simpl. rewrite !filter_cons. simpl.
  destruct (decide (t = 1%Z)) as [->|Hne].
  - rewrite decide_True by done. simpl. by rewrite IH.
  - rewrite decide_False by (intros [? _]; done). exact IH.
Qed.

Lemma prf_divide_same (k : nat) : (0 < k)%nat → Metrics.prf_divide k k == 1.
Proof.
  intros Hk. destruct k as [|k]; [lia|]. unfold Metrics.prf_divide.
  apply Qmult_inv_r. intros E. unfold Qeq in E. simpl in E. lia.
Qed.

Lemma true_sum_pos (thr : Q) (ys : list Q) (y : Q) :
  y ∈ ys → thr <= y → (0 < Metrics.true_sum (binarize thr ys))%nat.
Proof.
  intros Hy Hle. unfold Metrics.true_sum.
  assert (Hin : 1%Z ∈ filter (λ t, t = 1%Z) (binarize thr ys)).
  { apply list_elem_of_filter. split; [done|]. unfold binarize.
    apply list_elem_of_fmap. exists y. split; [|done].
    apply Qle_bool_iff in Hle. by rewrite Hle. }
  destruct (filter _ _); [by apply elem_of_nil in Hin | simpl; lia].
Qed.

Lemma hybrid_evaluation_rows_elem_of (raw : list Row) (model : Algo)
    (testset : list (Z * Z * Q)) (h : HybridRow) :
  h ∈ hybrid_evaluation_rows raw model testset →
  h_svd_pred h = model (h_userId h) (h_movieId h)
  ∧ hybrid_pred h = (h_svd_pred h + h_vote_average h) / 2
  ∧ ∃ row, row ∈ raw ∧ movieId row = h_movieId h
           ∧ vote_average row = Some (h_vote_average h).
Proof.
  intros Hh. apply hybrid_rows_elem_of in Hh as (Hs & Hp & row & Hrow & Hm & Hv).
  split; [done|]. split; [done|]. exists row. split; [|done].
  unfold dropna_subset in Hrow. by apply list_elem_of_filter in Hrow as [_ ?].
Qed.

(** X12. In the hybrid evaluation a test rating is labelled "liked" exactly
    when the model's prediction and the movie's vote average add up to at
    least 7.  Hence, when the model predicts at least 0.5 everywhere and every
    vote average of the file is at least 6.5, every label is 1 whatever the
    model, and recall is 1 as soon as one actual rating reaches 3.5. *)
Theorem hybrid_labels_follow_vote_average (raw : list Row) (model : Algo)
    (testset : list (Z * Z * Q)) :
  (∀ k h, hybrid_evaluation_rows raw model testset !! k = Some h →
     hybrid_y_pred_bin raw model testset !! k
     = Some (if Qle_bool 7 (model (h_userId h) (h_movieId h) + h_vote_average h)
             then 1%Z else 0%Z))
  ∧ ((∀ u i, 1 # 2 <= model u i) →
     (∀ r v, r ∈ raw → vote_average r = Some v → 13 # 2 <= v) →
     hybrid_y_pred_bin raw model testset
       = replicate (length (hybrid_evaluation_rows raw model testset)) 1%Z
     ∧ ((∃ h, h ∈ hybrid_evaluation_rows raw model testset ∧ 7 # 2 <= h_actual h) →
        recall_val (hybrid_classification_metrics raw model testset) == 1)).
Proof.
  assert (Hlabel : ∀ k h, hybrid_evaluation_rows raw model testset !! k = Some h →
            hybrid_y_pred_bin raw model testset !! k
            = Some (if Qle_bool 7 (model (h_userId h) (h_movieId h) + h_vote_average h)
                    then 1%Z else 0%Z)).
  { intros k h Hk. unfold hybrid_y_pred_bin.
    rewrite (binarize_lookup (7 # 2) _ k (hybrid_pred h)) by by rewrite list_lookup_fmap, Hk.
    destruct (hybrid_evaluation_rows_elem_of raw model testset h) as (Hs & Hp & _);
      [by eapply list_elem_of_lookup_2|].
    rewrite Hp, <- Hs. f_equal.
    destruct (Qle_bool 7 _) eqn:E1, (Qle_bool (7 # 2) _) eqn:E2; try done.
    - apply Qle_bool_iff in E1.
      assert (H : 7 # 2 <= (h_svd_pred h + h_vote_average h) / 2)
        by (apply Qle_shift_div_l; [done|lra]).
      apply Qle_bool_iff in H. congruence.
    - apply Qle_bool_iff in E2.
      assert (H : 7 <= h_svd_pred h + h_vote_average h).
      { apply (Qmult_le_compat_r _ _ 2) in E2; [|done].
        assert (E : (h_svd_pred h + h_vote_average h) / 2 * 2
                    == h_svd_pred h + h_vote_average h) by (field; done).
        rewrite E in E2. lra. }
      apply Qle_bool_iff in H. congruence. }
  split; [exact Hlabel|]. intros Hmodel Hvote.
  assert (Hones : hybrid_y_pred_bin raw model testset
                  = replicate (length (hybrid_evaluation_rows raw model testset)) 1%Z).
  { apply list_eq. intros k.
    destruct (hybrid_evaluation_rows raw model testset !! k) as [h|] eqn:Hk.
    - rewrite (Hlabel k h Hk).
      rewrite lookup_replicate_2 by by eapply lookup_lt_Some.
      destruct (hybrid_evaluation_rows_elem_of raw model testset h)
        as (_ & _ & row & Hrow & _ & Hv); [by eapply list_elem_of_lookup_2|].
      pose proof (Hvote row _ Hrow Hv) as H1.
      pose proof (Hmodel (h_userId h) (h_movieId h)) as H2.
      assert (H : 7 <= model (h_userId h) (h_movieId h) + h_vote_average h) by lra.
      apply Qle_bool_iff in H. by rewrite H.
    - apply lookup_ge_None in Hk.
      rewrite lookup_ge_None_2; [symmetry; apply lookup_ge_None_2|].
      + by rewrite length_replicate.
      + unfold hybrid_y_pred_bin, binarize. by rewrite !length_fmap. }
  split; [exact Hones|].
  intros (h & Hh & Hact).
  unfold hybrid_classification_metrics, classification_of. simpl.
  fold (hybrid_y_pred_bin raw model testset). rewrite Hones.
  unfold Metrics.recall_score.
  replace (length (hybrid_evaluation_rows raw model testset))
    with (length (binarize (7 # 2) (h_actual <$> hybrid_evaluation_rows raw model testset)))
    by (unfold binarize; by rewrite !length_fmap).
  rewrite tp_sum_all_ones. apply prf_divide_same.
  apply (true_sum_pos _ _ (h_actual h)); [by apply list_elem_of_fmap_2|done].
Qed.

Lemma hybrid_labels_follow_vote_average_witness :
  hybrid_y_pred_bin Samples.df Samples.algo [(2%Z, 10%Z, 5); (2%Z, 40%Z, 4)]
    = replicate
        (length (hybrid_evaluation_rows Samples.df Samples.algo [(2%Z, 10%Z, 5); (2%Z, 40%Z, 4)]))
        1%Z
  ∧ ((∃ h, h ∈ hybrid_evaluation_rows Samples.df Samples.algo [(2%Z, 10%Z, 5); (2%Z, 40%Z, 4)]
           ∧ 7 # 2 <= h_actual h) →
     recall_val (hybrid_classification_metrics Samples.df Samples.algo
                   [(2%Z, 10%Z, 5); (2%Z, 40%Z, 4)]) == 1).
Proof.
  apply (proj2 (hybrid_labels_follow_vote_average Samples.df Samples.algo
                  [(2%Z, 10%Z, 5); (2%Z, 40%Z, 4)])).
  - intros u i. apply clip_bounds. discriminate.
  - intros r v Hr Hv.
    repeat (apply elem_of_cons in Hr as [->|Hr]); try (by apply elem_of_nil in Hr);
      simpl in Hv; try discriminate Hv; injection Hv as <-; discriminate.
Defined.

(** ** The size of the errors *)















